(** * blog-stack: the content pipeline of [blog_generator.py] and
    [blog_generator/md_to_html.py]

    A shallow embedding of the static-site generator's pipeline: metadata
    extraction, asset de-duplication, image-reference rewriting, the
    published ordering, excerpt derivation and the orchestration of a run
    with its failure modes.

    Python [str] values are sequences of code points; they are modelled as
    [list ascii], one [ascii] per code point (the Latin-1 range), so that
    [len], slicing and concatenation are the list operations. *)

From Stdlib Require Import Ascii String.
From stdpp Require Import base list gmap strings pretty sorting.

Set Warnings "-register-all,-clear-no-such-hyp".

Abbreviation str := (list ascii).

(** A literal of the source. *)
Definition py (s : string) : str := list_ascii_of_string s.

(** * Python string primitives used by the generator *)

Module PyStr.

(** [s.startswith(p)] *)
Fixpoint startswith (s p : str) : bool :=
  match p, s with
  | [], _ => true
  | _ :: _, [] => false
  | a :: p', b :: s' => if decide (a = b) then startswith s' p' else false
  end.

(** [s.endswith(p)] *)
Definition endswith (s p : str) : bool := startswith (reverse s) (reverse p).

(** [s.partition(sep)], restricted to a non-empty [sep]: the text before
    and after the leftmost occurrence of [sep], when there is one. *)
Fixpoint cut (sep s : str) : option (str * str) :=
  if startswith s sep then Some ([], drop (length sep) s)
  else match s with
       | [] => None
       | c :: s' =>
           match cut sep s' with
           | Some (a, b) => Some (c :: a, b)
           | None => None
           end
       end.

(** [s.split(sep, maxsplit)] for a non-empty [sep]: at most [maxsplit]
    cuts, at the leftmost occurrences. *)
Fixpoint split (sep : str) (maxsplit : nat) (s : str) : list str :=
  match maxsplit with
  | 0 => [s]
  | S n =>
      match cut sep s with
      | None => [s]
      | Some (a, b) => a :: split sep n b
      end
  end.

(** [str.isspace] on one code point below 256: TAB, LF, VT, FF, CR,
    FS, GS, RS, US, space, NEL and NBSP. *)
Definition is_space (c : ascii) : bool :=
  let n := nat_of_ascii c in
  ((9 <=? n) && (n <=? 13)) || ((28 <=? n) && (n <=? 32))
  || (n =? 133) || (n =? 160).

Fixpoint lstrip (s : str) : str :=
  match s with
  | c :: s' => if is_space c then lstrip s' else s
  | [] => []
  end.

(** [s.strip()] *)
Definition strip (s : str) : str := reverse (lstrip (reverse (lstrip s))).

(** [s.lower()] on the ASCII letters and the Latin-1 capitals. *)
Definition lower_char (c : ascii) : ascii :=
  let n := nat_of_ascii c in
  if ((65 <=? n) && (n <=? 90))
     || ((192 <=? n) && (n <=? 222) && negb (n =? 215))
  then ascii_of_nat (n + 32) else c.

Definition lower (s : str) : str := lower_char <$> s.

(** [s.replace(old, new)] for a non-empty [old]; [fuel] bounds the number
    of replacements and [length s] always suffices. *)
Fixpoint replace_go (fuel : nat) (old new s : str) : str :=
  match fuel with
  | 0 => s
  | S f =>
      match cut old s with
      | None => s
      | Some (a, b) => a ++ new ++ replace_go f old new b
      end
  end.

Definition replace (old new s : str) : str :=
  replace_go (length s) old new s.

End PyStr.

(** * POSIX [os.path] *)

Module OsPath.

Definition sep : ascii := "/"%char.
Definition extsep : ascii := "."%char.

(** The text after the last [c] of [s], or all of [s] without one. *)
Fixpoint after_last (c : ascii) (s : str) : str :=
  match s with
  | [] => []
  | a :: s' =>
      if existsb (λ b, bool_decide (b = c)) s' then after_last c s'
      else if decide (a = c) then s' else s
  end.

(** [os.path.basename(p)]: [p[p.rfind('/') + 1:]]. *)
Definition basename (p : str) : str := after_last sep p.

(** [os.path.join(a, b)] *)
Definition join (a b : str) : str :=
  if PyStr.startswith b [sep] then b
  else match last a with
       | None => b
       | Some c => if decide (c = sep) then a ++ b else a ++ sep :: b
       end.

(** [os.path.splitext(p)] on a name without directory separator: the
    extension starts at the last dot, unless only dots precede it. *)
Fixpoint splitext_go (seen_other : bool) (s : str) : option (str * str) :=
  match s with
  | [] => None
  | c :: s' =>
      match splitext_go (seen_other || negb (bool_decide (c = extsep))) s' with
      | Some (name, ext) => Some (c :: name, ext)
      | None =>
          if bool_decide (c = extsep) && seen_other then Some ([], s)
          else None
      end
  end.

Definition splitext (p : str) : str * str :=
  match splitext_go false p with
  | Some r => r
  | None => (p, [])
  end.


End OsPath.

(** * Python values, exceptions and results *)

(** The objects [yaml.safe_load] builds: the YAML scalars, sequences and
    mappings.  A float keeps its literal text. *)
Inductive value :=
| VNone
| VBool (b : bool)
| VInt (z : Z)
| VFloat (zero : bool) (literal : str)
| VStr (s : str)
| VDate (year month day : nat)
| VList (items : list value)
| VDict (entries : list (value * value)).

(** [bool(v)] *)
Definition truthy (v : value) : bool :=
  match v with
  | VNone => false
  | VBool b => b
  | VInt z => negb (z =? 0)%Z
  | VFloat zero _ => negb zero
  | VStr s => negb (bool_decide (s = []))
  | VDate _ _ _ => true
  | VList items => match items with [] => false | _ => true end
  | VDict entries => match entries with [] => false | _ => true end
  end.

(** [v == s] for a string literal [s]: only a string equals a string. *)
Definition eq_str (v : value) (s : str) : bool :=
  match v with
  | VStr t => bool_decide (t = s)
  | _ => false
  end.

Inductive exn :=
| YAMLError
| AttributeError
| TypeError
| OSError
| ValueError
| ReError
| SystemExit (code : nat).

(** The result of a computation that may raise. *)
Inductive result (A : Type) :=
| Ok (a : A)
| Raise (e : exn).
Arguments Ok {A} a.
Arguments Raise {A} e.

#[global] Instance result_ret : MRet result := λ A a, Ok a.
#[global] Instance result_bind : MBind result := λ A B k r,
  match r with
  | Ok a => k a
  | Raise e => Raise e
  end.

(** [try: r except: handler] with a bare [except]. *)
Definition try_except {A} (r : result A) (handler : A) : A :=
  match r with
  | Ok a => a
  | Raise _ => handler
  end.

(** [d.get(key, default)] with a string [key]; an object that is not a
    dict has no [get] attribute. *)
Fixpoint dict_lookup (entries : list (value * value)) (key : str)
    : option value :=
  match entries with
  | [] => None
  | (k, v) :: entries' =>
      if eq_str k key then Some v else dict_lookup entries' key
  end.

Definition get (metadata : value) (key : str) (dflt : value)
    : result value :=
  match metadata with
  | VDict entries => Ok (default dflt (dict_lookup entries key))
  | _ => Raise AttributeError
  end.

(** ** Dates

    [datetime.strptime(s, '%Y-%m-%d')] yields a [datetime] at midnight, so
    a [datetime] of this program is its calendar date; [datetime]s compare
    in the order of (year, month, day). *)
Record datetime := { year : nat; month : nat; day : nat }.

#[global] Instance datetime_eq_dec : EqDecision datetime.
Proof. solve_decision. Defined.

Definition datetime_min : datetime := {| year := 1; month := 1; day := 1 |}.

Definition datetime_lt (a b : datetime) : bool :=
  (year a <? year b)
  || ((year a =? year b)
      && ((month a <? month b)
          || ((month a =? month b) && (day a <? day b)))).

(** ** [list.sort(key=..., reverse=...)]

    Python's sort is stable and compares keys with [<] only; with
    [reverse=True] the list is reversed, sorted and reversed again, which
    keeps equal keys in their original order.  A stable sort has one
    possible result, computed here by insertion. *)

Section ListSort.
Context {A K : Type} (key : A → K) (lt : K → K → bool).

Fixpoint insert_sorted (x : A) (l : list A) : list A :=
  match l with
  | [] => [x]
  | y :: l' => if lt (key y) (key x) then y :: insert_sorted x l' else x :: l
  end.

Definition stable_sort (l : list A) : list A := foldr insert_sorted [] l.

Definition list_sort (rev : bool) (l : list A) : list A :=
  if rev then reverse (stable_sort (reverse l)) else stable_sort l.

(** [a] may stand before [b] in ascending order. *)
Definition ascending (a b : A) : Prop := lt (key b) (key a) = false.
(** [a] may stand before [b] in descending order. *)
Definition descending (a b : A) : Prop := lt (key a) (key b) = false.

End ListSort.

(** * The libraries the generator calls

    PyYAML, [datetime], Python-Markdown and the template expansion of
    [re.sub] are not code of this repository; the generator is modelled
    over any implementation of them. *)

Class Libraries := {
  (** [yaml.safe_load(text)] *)
  safe_load : str → result value;
  (** the built-in [str(v)], also used by f-strings *)
  py_str : value → str;
  (** [datetime.strptime(s, '%Y-%m-%d')]; [None] is its [ValueError] *)
  strptime : str → option datetime;
  (** [d.strftime('%B %d, %Y')] *)
  strftime : datetime → str;
  (** [markdown.markdown(text)] *)
  markdown : str → str;
  (** [re.sub(pattern, repl, s, flags=re.DOTALL)] for the pattern of the
      articles grid; [repl] is a template and a bad escape in it raises *)
  re_sub_grid : str → str → result str
}.

(** * Runs of the generator

    What a run finds: whether [blogs_dir] exists, the walk of it, which
    source paths [shutil.copy2] can copy ([false] for a dangling link or an
    unreadable file, on which it raises an [OSError]), what reading a file
    gives at each stage of the run ([None] when [open] or [read] fails),
    and the template files next to the script, by name ([None] when there
    is no such file).  What it leaves: the images directory and the files
    written, in order, by their path under the output directory.  Writing
    a file is taken to succeed. *)

Inductive stage := FirstPass | SecondPass | HomePage.

Record world := {
  blogs_dir_exists : bool;
  walk : list (str * list str);
  copy_ok : str → bool;
  read_file : stage → str → option str;
  template_file : str → option str
}.

Record site := {
  images : gmap str str;
  files : list (str * str)
}.

Definition empty_site : site := {| images := ∅; files := [] |}.

(** An action of the run: it ends with a value or an exception, and with
    the site as it is then. *)
Definition io (A : Type) : Type := site → result A * site.

#[global] Instance io_ret : MRet io := λ A a s, (Ok a, s).
#[global] Instance io_bind : MBind io := λ A B k act s,
  match act s with
  | (Ok a, s') => k a s'
  | (Raise e, s') => (Raise e, s')
  end.

Definition lift {A} (r : result A) : io A := λ s, (r, s).

(** [try: act except: handler] with a bare [except]. *)
Definition try_catch {A} (act handler : io A) : io A := λ s,
  match act s with
  | (Ok a, s') => (Ok a, s')
  | (Raise _, s') => handler s'
  end.

(** [with open(path, 'w') as f: f.write(content)] *)
Definition write_file (file_path content : str) : io unit := λ s,
  (Ok (), {| images := images s; files := files s ++ [(file_path, content)] |}).

(** [with open(path, 'r') as f: f.read()] *)
Definition open_read (w : world) (st : stage) (file_path : str) : io str :=
  lift (match read_file w st file_path with
        | Some content => Ok content
        | None => Raise OSError
        end).

(** [shutil.rmtree(output_dir)] when it exists, then
    [os.makedirs(output_dir)]: the run starts from an empty output. *)
Definition recreate_output : io unit := λ _, (Ok (), empty_site).

(** The world [w] with the template file [name] holding [content]. *)
Definition with_template (w : world) (name content : str) : world :=
  {| blogs_dir_exists := blogs_dir_exists w;
     walk := walk w;
     copy_ok := copy_ok w;
     read_file := read_file w;
     template_file n :=
       if decide (n = name) then Some content else template_file w n |}.

(** The home page has not been written. *)
Definition no_index (s : site) : Prop := py "index.html" ∉ (files s).*1.

(** A literal of the source that holds double quotes, written with [~] in
    their place.  The few symbols of the layout texts that lie outside
    Latin-1 stand as their UTF-8 bytes. *)
Definition pyq (s : string) : str :=
  (λ c, if decide (c = "~"%char) then "034"%char else c) <$> py s.

(** * Code shared by [blog_generator.py] and [blog_generator/md_to_html.py]

    [extract_metadata], [find_md_files], [copy_assets], the frontmatter
    removal and the excerpt derivation are the same text in both files. *)

Definition delimiter : str := py "---".

(** ** [extract_metadata] *)

Section ExtractMetadata.
Context `{Libraries}.

(** The tuple [title, date, status, author, tags]. *)
Definition metadata : Type :=
  value * option datetime * value * value * value.

Definition default_metadata : metadata :=
  (VStr (py "Untitled"), None, VStr (py "draft"), VStr [], VList []).

(** [date = None], then the [if date_str:] block with its own
    [try ... except ValueError: pass]. *)
Definition parse_date (date_str : value) : option datetime :=
  if truthy date_str then strptime (py_str date_str) else None.

(** The body of the outer [try]. *)
Definition extract_metadata_try (md_content : str) : result metadata :=
  let parts := PyStr.split delimiter 2 md_content in
  if length parts <? 3 then Ok default_metadata
  else
    let frontmatter := PyStr.strip (nth 1 parts []) in
    metadata ← safe_load frontmatter;
    title ← get metadata (py "title") (VStr (py "Untitled"));
    date_str ← get metadata (py "date") VNone;
    status ← get metadata (py "status") (VStr (py "draft"));
    author ← get metadata (py "author") (VStr []);
    tags ← get metadata (py "tags") (VList []);
    Ok (title, parse_date date_str, status, author, tags).

Definition extract_metadata (md_content : str) : result metadata :=
  if negb (PyStr.startswith md_content delimiter) then Ok default_metadata
  else Ok (try_except (extract_metadata_try md_content) default_metadata).

End ExtractMetadata.

(** ** The records of the corpus and the published ordering *)

(** The dict [blog_info]. *)
Record blog_info := {
  title : value;
  path : str;
  date : option datetime;
  status : value;
  author : value;
  tags : value;
  md_file : str
}.

(** [lambda x: x['date'] or datetime.min]; a [datetime] is never false. *)
Definition sort_key (x : blog_info) : datetime :=
  default datetime_min (date x).

(** [if status == 'published': published_blogs.append(blog_info)] over the
    records in discovery order. *)
Definition published_of (all_blogs : list blog_info) : list blog_info :=
  filter (λ x, eq_str (status x) (py "published") = true) all_blogs.

(** [published_blogs.sort(key=lambda x: x['date'] or datetime.min,
    reverse=True)] *)
Definition published_ordering (all_blogs : list blog_info) : list blog_info :=
  list_sort sort_key datetime_lt true (published_of all_blogs).

(** ** Asset de-duplication: [copy_assets]

    [os.walk(blogs_dir)] is given by its result, the list of visited
    directories with the names of the files in each (the [dirs] component
    is not used).  The names are basenames, so
    [os.path.basename(os.path.join(images_dir, n))] is [n] and the output
    directory is kept as a finite map from the names it holds to the source
    path copied there; [os.path.exists(dst_path)] is a lookup in it.

    [copy_assets] below is the function on a tree all of whose images
    [shutil.copy2] copies, which is when it returns; [copy_assets_io]
    further down is the same loops as a step of a run, where a copy may
    raise. *)

Definition image_extensions : list str :=
  py <$> [".jpg"; ".jpeg"; ".png"; ".gif"; ".svg"; ".webp"; ".bmp"; ".ico"]%string.

Record assets := {
  images_dir : gmap str str;      (* name in the output directory, and its source *)
  copied_images : gmap str str;   (* the rename map being built *)
  printed : list (str * str)      (* the [Copied image: file -> name] lines *)
}.

(** The f-string [{name}_{counter}{ext}]. *)
Definition suffixed (file : str) (counter : nat) : str :=
  let '(name, ext) := OsPath.splitext file in
  name ++ py "_" ++ py (pretty counter) ++ ext.

(** The loop [while os.path.exists(dst_path)], entered with the current
    candidate [dst] and [counter]; [None] when [fuel] runs out. *)
Fixpoint free_name (fuel : nat) (dir : gmap str str) (file dst : str)
    (counter : nat) : option str :=
  match dir !! dst with
  | None => Some dst
  | Some _ =>
      match fuel with
      | 0 => None
      | S f => free_name f dir file (suffixed file counter) (S counter)
      end
  end.

(** The body of the inner [for], for one file of one directory. *)
Definition is_image (file : str) : bool :=
  let file_ext := PyStr.lower (OsPath.splitext file).2 in
  bool_decide (file_ext ∈ image_extensions).

Definition copy_file (root file : str) (st : assets) : option assets :=
  if is_image file then
    let src_path := OsPath.join root file in
    dst ← free_name (S (size (images_dir st))) (images_dir st) file file 1;
    Some {| images_dir := <[dst := src_path]> (images_dir st);
            copied_images := <[file := dst]> (copied_images st);
            printed := printed st ++ [(file, dst)] |}
  else Some st.

Fixpoint copy_files (root : str) (files : list str) (st : assets)
    : option assets :=
  match files with
  | [] => Some st
  | file :: files' => st' ← copy_file root file st; copy_files root files' st'
  end.

Fixpoint copy_walk (walk : list (str * list str)) (st : assets)
    : option assets :=
  match walk with
  | [] => Some st
  | (root, files) :: walk' =>
      st' ← copy_files root files st; copy_walk walk' st'
  end.

(** [copy_assets(blogs_dir, output_dir)], from the walk of [blogs_dir] and
    the content of [output_dir/images] when it is called. *)
Definition copy_assets (walk : list (str * list str)) (dir0 : gmap str str)
    : option assets :=
  copy_walk walk {| images_dir := dir0; copied_images := ∅; printed := [] |}.

(** [find_md_files(directory)] *)
Definition find_md_files (walk : list (str * list str)) : list str :=
  '(root, files) ← walk;
  file ← files;
  if PyStr.endswith file (py ".md") then [OsPath.join root file] else [].

(** The source paths of the image files of a walk, in the order in which
    [copy_assets] copies them. *)
Definition image_sources (walk : list (str * list str)) : list str :=
  '(root, files) ← walk;
  file ← files;
  if is_image file then [OsPath.join root file] else [].

(** ** [copy_assets] as a step of a run

    The same loops on the images directory of the site, with the rename
    map as the local variable it is.  [shutil.copy2] stands in no [try]:
    on a source that it cannot copy the run ends there with its [OSError],
    the images copied before staying where they are.  The loop of
    [free_name] always ends, see [free_name_spec] below, so its [None] case
    does not arise. *)
Definition copy_file_io (w : world) (root file : str)
    (copied_images : gmap str str) : io (gmap str str) := λ s,
  if is_image file then
    let src_path := OsPath.join root file in
    match free_name (S (size (images s))) (images s) file file 1 with
    | Some dst =>
        if copy_ok w src_path then
          (Ok (<[file := dst]> copied_images),
           {| images := <[dst := src_path]> (images s); files := files s |})
        else (Raise OSError, s)
    | None => (Ok copied_images, s)
    end
  else (Ok copied_images, s).

Fixpoint copy_files_io (w : world) (root : str) (files : list str)
    (copied_images : gmap str str) : io (gmap str str) :=
  match files with
  | [] => mret copied_images
  | file :: files' =>
      copied_images ← copy_file_io w root file copied_images;
      copy_files_io w root files' copied_images
  end.

Fixpoint copy_walk_io (w : world) (walk : list (str * list str))
    (copied_images : gmap str str) : io (gmap str str) :=
  match walk with
  | [] => mret copied_images
  | (root, files) :: walk' =>
      copied_images ← copy_files_io w root files copied_images;
      copy_walk_io w walk' copied_images
  end.

Definition copy_assets_io (w : world) : io (gmap str str) :=
  copy_walk_io w (walk w) ∅.

(** The files of a walk in the order of the two nested [for] loops. *)
Definition walk_files (walk : list (str * list str)) : list str :=
  mjoin (snd <$> walk).

(** What holds of the output directory, the rename map and the printed
    lines after the files [seen] have been processed, starting from the
    directory content [dir0]. *)
Record assets_inv (dir0 : gmap str str) (seen : list str) (st : assets)
    : Prop := {
  inv_kept : dir0 ⊆ images_dir st;
  inv_dom : dom (images_dir st) = dom dir0 ∪ list_to_set (printed st).*2;
  inv_fresh : ∀ n, n ∈ (printed st).*2 → dir0 !! n = None;
  inv_nodup : NoDup (printed st).*2;
  inv_names :
    Forall (λ e, e.2 = e.1 ∨ ∃ k, 1 ≤ k ∧ e.2 = suffixed e.1 k) (printed st);
  inv_files : (printed st).*1 = filter (λ f, is_image f = true) seen;
  inv_map : ∀ k,
    copied_images st !! k
    = snd <$> last (filter (λ e, e.1 = k) (printed st))
}.

(** ** Frontmatter removal

    [content_parts = md_content.split('---', 2)]; the third part, stripped,
    when there are three parts, and the whole text otherwise.  The same
    four lines occur in [generate_blog_site] and in [generate_home_page]. *)

Definition content_only (md_content : str) : str :=
  let content_parts := PyStr.split delimiter 2 md_content in
  if 3 <=? length content_parts
  then PyStr.strip (nth 2 content_parts [])
  else md_content.

(** ** Excerpts of the home page *)

(** The character class of [re.sub(r'[#*`]', '', excerpt)]. *)
Definition is_marker (c : ascii) : bool :=
  bool_decide (c = "#"%char) || bool_decide (c = "*"%char)
  || bool_decide (c = "`"%char).

(** [re.sub(r'[#*`]', '', s)]: every match is one character and is
    replaced by the empty string. *)
Fixpoint strip_markers (s : str) : str :=
  match s with
  | [] => []
  | c :: s' => if is_marker c then strip_markers s' else c :: strip_markers s'
  end.

Definition ellipsis : str := py "...".

(** [content[:150] + "..." if len(content) > 150 else content], then the
    marker characters are removed. *)
Definition excerpt_of_content (content : str) : str :=
  let excerpt :=
    if 150 <? length content then take 150 content ++ ellipsis else content in
  strip_markers excerpt.

(** ** The image pattern

    An exclamation mark, a bracketed group 1 of any characters other than
    the closing bracket (possibly none), and a parenthesised group 2 of one
    or more characters other than the closing parenthesis. *)

Module ImagePattern.

(** A greedy negated class [[^c]*]: the longest run of characters other
    than [c], and what follows it.  What follows is empty or starts with
    [c], so a shorter run can never be followed by [c]: the regex engine's
    backtracking into the run never succeeds and the run is the group. *)
Fixpoint span_not (c : ascii) (s : str) : str * str :=
  match s with
  | [] => ([], [])
  | a :: s' =>
      if decide (a = c) then ([], s)
      else let '(run, rest) := span_not c s' in (a :: run, rest)
  end.

(** A match of the pattern at the head of [s]: group 1, group 2 and the
    text after the match. *)
Definition match_here (s : str) : option (str * str * str) :=
  match s with
  | "!"%char :: "["%char :: s1 =>
      let '(alt_text, s2) := span_not "]"%char s1 in
      match s2 with
      | "]"%char :: "("%char :: s3 =>
          let '(image_path, s4) := span_not ")"%char s3 in
          match image_path, s4 with
          | _ :: _, ")"%char :: s5 => Some (alt_text, image_path, s5)
          | _, _ => None
          end
      | _ => None
      end
  | _ => None
  end.

(** The pattern from the opening parenthesis on, used to state facts
    about [match_here]: group 2 and the text after the match. *)
Definition match_path (s3 : str) : option (str * str) :=
  match s3 with
  | "("%char :: s3' =>
      let '(image_path, s4) := span_not ")"%char s3' in
      match image_path, s4 with
      | _ :: _, ")"%char :: s5 => Some (image_path, s5)
      | _, _ => None
      end
  | _ => None
  end.

(** [re.sub(pattern, repl, s)] with a function [repl] of the two groups:
    the leftmost match is replaced and the scan resumes after it; where no
    match starts the character is copied.  A match is never empty, so
    [fuel = length s] steps suffice. *)
Fixpoint sub_go (repl : str → str → str) (fuel : nat) (s : str) : str :=
  match fuel with
  | 0 => s
  | S f =>
      match match_here s with
      | Some (alt_text, image_path, rest) =>
          repl alt_text image_path ++ sub_go repl f rest
      | None =>
          match s with
          | [] => []
          | c :: s' => c :: sub_go repl f s'
          end
      end
  end.

Definition sub (repl : str → str → str) (s : str) : str :=
  sub_go repl (length s) s.

(** The f-string [![{alt_text}]({prefix}{name})]. *)
Definition embed (alt_text prefix name : str) : str :=
  py "![" ++ alt_text ++ py "](" ++ prefix ++ name ++ py ")".

End ImagePattern.

(** * [blog_generator.py] *)

Module BlogGenerator.

Definition replace_image (copied_images : gmap str str)
    (alt_text image_path : str) : str :=
  let image_filename := OsPath.basename image_path in
  match copied_images !! image_filename with
  | Some new_filename => ImagePattern.embed alt_text (py "/images/") new_filename
  | None => ImagePattern.embed alt_text (py "/images/") image_filename
  end.

Definition update_image_references (md_content : str)
    (copied_images : gmap str str) : str :=
  ImagePattern.sub (replace_image copied_images) md_content.


Section Run.
Context `{Libraries}.

(** [d.strftime('%B %d, %Y') if d else 'No date'] *)
Definition date_text (d : option datetime) : str :=
  match d with
  | Some d => strftime d
  | None => py "No date"
  end.

(** The f-string [html_doc]. *)
Definition html_doc (title : value) (author : value) (date : option datetime)
    (status : value) (html_content : str) : str :=
  pyq "<!DOCTYPE html>
<html>
<head>
    <meta charset=~utf-8~>
    <title>"
  ++ py_str title
  ++ pyq "</title>
    <style>
        body {
            font-family: Arial, sans-serif;
            line-height: 1.6;
            max-width: 800px;
            margin: 0 auto;
            padding: 20px;
        }
        pre {
            background-color: #f4f4f4;
            padding: 10px;
            border-radius: 5px;
            overflow-x: auto;
        }
        code {
            font-family: monospace;
        }
        img {
            max-width: 100%;
        }
        .meta {
            color: #666;
            font-size: 0.9rem;
            margin-bottom: 2rem;
            padding-bottom: 1rem;
            border-bottom: 1px solid #eee;
        }
        .nav {
            margin-bottom: 20px;
        }
        .nav a {
            color: #007acc;
            text-decoration: none;
        }
    </style>
</head>
<body>
    <div class=~nav~>
        <a href=~/index.html~>← Back to Home</a>
    </div>
    <div class=~meta~>
        <strong>"
  ++ py_str title
  ++ pyq "</strong><br>
        "
  ++ (if truthy author then py "By " ++ py_str author ++ py " | " else [])
  ++ date_text date
  ++ pyq " | Status: "
  ++ py_str status
  ++ pyq "
    </div>
"
  ++ html_content
  ++ pyq "
</body>
</html>
".

(** The excerpt of one card: the [try] block and its bare [except]. *)
Definition excerpt_of (w : world) (blog : blog_info) : io str :=
  try_catch
    (md_content ← open_read w HomePage (md_file blog);
     mret (excerpt_of_content (content_only md_content)))
    (mret (py "No preview available...")).

(** The f-string added to [articles_html] for one record. *)
Definition article_card (blog : blog_info) (date_str excerpt : str) : str :=
  pyq "
                <article class=~article-card~ onclick=~location.href='/"
  ++ path blog
  ++ pyq "'~>
                    <div class=~article-image~>🧠</div>
                    <div class=~article-content~>
                        <h3 class=~article-title~>"
  ++ py_str (title blog)
  ++ pyq "</h3>
                        <div class=~article-date~>"
  ++ date_str
  ++ pyq "</div>
                        <p class=~article-excerpt~>"
  ++ excerpt
  ++ pyq "</p>
                        <a href=~/"
  ++ path blog
  ++ pyq "~ class=~read-more~>Read More →</a>
                    </div>
                </article>".

Fixpoint articles_html_of (w : world) (blogs : list blog_info)
    (articles_html : str) : io str :=
  match blogs with
  | [] => mret articles_html
  | blog :: blogs' =>
      excerpt ← excerpt_of w blog;
      let date_str := date_text (date blog) in
      articles_html_of w blogs'
        (articles_html ++ article_card blog date_str excerpt)
  end.

Definition home_template_name : str := py "blog_home_template.html".

(** The built-in template of the [except] branch. *)
Definition fallback_template : str :=
  pyq "<!DOCTYPE html>
<html>
<head>
    <meta charset=~utf-8~>
    <title>Neural Networks Hub</title>
</head>
<body>
    <h1>Neural Networks Hub</h1>
    <div class=~articles-grid~>
        {articles}
    </div>
</body>
</html>".

(** The f-string given to [re.sub] as replacement. *)
Definition grid_replacement (articles_html : str) : str :=
  pyq "<div class=~articles-grid~>" ++ articles_html ++ py "
            </div>".

Definition generate_home_page (w : world) (published_blogs : list blog_info)
    : io unit :=
  articles_html ← articles_html_of w (take 10 published_blogs) [];
  let template_content :=
    match template_file w home_template_name with
    | Some content => content
    | None => fallback_template
    end in
  home_content ← lift (re_sub_grid (grid_replacement articles_html)
                          template_content);
  write_file (py "index.html") home_content.

(** The body of [for md_file in md_files], with the two lists it extends. *)
Definition process_file (w : world) (copied_images : gmap str str)
    (md_file : str) (lists : list blog_info * list blog_info)
    : io (list blog_info * list blog_info) :=
  let '(published_blogs, all_blogs) := lists in
  md_content ← open_read w FirstPass md_file;
  '(title, date, status, author, tags) ← lift (extract_metadata md_content);
  let output_subdir :=
    if eq_str status (py "published") then py "published" else py "draft" in
  let blog_info :=
    {| title := title;
       path := output_subdir ++ py "/"
               ++ PyStr.replace (py ".md") (py ".html") (OsPath.basename md_file);
       date := date;
       status := status;
       author := author;
       tags := tags;
       md_file := md_file |} in
  let all_blogs := all_blogs ++ [blog_info] in
  let published_blogs :=
    if eq_str status (py "published") then published_blogs ++ [blog_info]
    else published_blogs in
  let updated_md_content :=
    update_image_references (content_only md_content) copied_images in
  let html_content := markdown updated_md_content in
  write_file (path blog_info) (html_doc title author date status html_content);;
  mret (published_blogs, all_blogs).

Fixpoint process_files (w : world) (copied_images : gmap str str)
    (md_files : list str) (lists : list blog_info * list blog_info)
    : io (list blog_info * list blog_info) :=
  match md_files with
  | [] => mret lists
  | md_file :: md_files' =>
      lists' ← process_file w copied_images md_file lists;
      process_files w copied_images md_files' lists'
  end.

(** [generate_blog_site(repo_dir)]; an exception that leaves it ends the
    program, after the [finally] of [main]. *)
Definition generate_blog_site (w : world) : io unit :=
  if negb (blogs_dir_exists w) then mret ()
  else
    recreate_output;;
    copied_images ← copy_assets_io w;
    let md_files := find_md_files (walk w) in
    '(published_blogs, all_blogs) ← process_files w copied_images md_files ([], []);
    let published_blogs := list_sort sort_key datetime_lt true published_blogs in
    generate_home_page w published_blogs.

End Run.

End BlogGenerator.

(** * [blog_generator/md_to_html.py] *)

Module MdToHtml.

Definition replace_image (copied_images : gmap str str)
    (alt_text image_path : str) : str :=
  let image_filename := OsPath.basename image_path in
  match copied_images !! image_filename with
  | Some new_filename => ImagePattern.embed alt_text (py "../images/") new_filename
  | None => ImagePattern.embed alt_text (py "/images/") image_filename
  end.

Definition update_image_references (md_content : str)
    (copied_images : gmap str str) : str :=
  ImagePattern.sub (replace_image copied_images) md_content.


(** [extract_repo_name(repo_url)] *)
Fixpoint lstrip_char (c : ascii) (s : str) : str :=
  match s with
  | a :: s' => if decide (a = c) then lstrip_char c s' else s
  | [] => []
  end.

(** [s.rstrip('/')] *)
Definition rstrip_slash (s : str) : str :=
  reverse (lstrip_char "/"%char (reverse s)).

Definition extract_repo_name (repo_url : str) : str :=
  let repo_name := OsPath.after_last "/"%char (rstrip_slash repo_url) in
  if PyStr.endswith repo_name (py ".git")
  then take (length repo_name - 4) repo_name
  else repo_name.

(** The second argument of [str.replace] has to be a [str]. *)
Definition as_str (v : value) : result str :=
  match v with
  | VStr s => Ok s
  | _ => Raise TypeError
  end.

Section Run.
Context `{Libraries}.

(** [load_template(template_name)]: [sys.exit(1)] when there is no such
    file. *)
Definition load_template (w : world) (template_name : str) : io str :=
  lift (match template_file w template_name with
        | Some content => Ok content
        | None => Raise (SystemExit 1)
        end).

(** The first pass: one record per file, nothing written. *)
Definition collect_file (w : world) (md_file : str)
    (lists : list blog_info * list blog_info)
    : io (list blog_info * list blog_info) :=
  let '(published_blogs, all_blogs) := lists in
  md_content ← open_read w FirstPass md_file;
  '(title, date, status, author, tags) ← lift (extract_metadata md_content);
  let output_subdir :=
    if eq_str status (py "published") then py "published" else py "draft" in
  let blog_info :=
    {| title := title;
       path := output_subdir ++ py "/"
               ++ PyStr.replace (py ".md") (py ".html") (OsPath.basename md_file);
       date := date;
       status := status;
       author := author;
       tags := tags;
       md_file := md_file |} in
  let all_blogs := all_blogs ++ [blog_info] in
  let published_blogs :=
    if eq_str status (py "published") then published_blogs ++ [blog_info]
    else published_blogs in
  mret (published_blogs, all_blogs).

Fixpoint collect_files (w : world) (md_files : list str)
    (lists : list blog_info * list blog_info)
    : io (list blog_info * list blog_info) :=
  match md_files with
  | [] => mret lists
  | md_file :: md_files' =>
      lists' ← collect_file w md_file lists;
      collect_files w md_files' lists'
  end.

(** The body of the second pass, for one record. *)
Definition convert_blog (w : world) (copied_images : gmap str str)
    (repo_name : str) (blog_info : blog_info) : io unit :=
  md_content ← open_read w SecondPass (md_file blog_info);
  let content_without_frontmatter := content_only md_content in
  let updated_md_content :=
    update_image_references content_without_frontmatter copied_images in
  let html_content := markdown updated_md_content in
  template ← load_template w (py "blog_post.template");
  blog_title ← lift (as_str (title blog_info));
  let html_doc := PyStr.replace (py "{{TITLE}}") blog_title template in
  let html_doc := PyStr.replace (py "{{SITE_TITLE}}") repo_name html_doc in
  let html_doc := PyStr.replace (py "{{NAVIGATION}}") [] html_doc in
  let html_doc := PyStr.replace (py "{{CONTENT}}") html_content html_doc in
  let html_doc :=
    PyStr.replace (py "{{COPYRIGHT}}") (py "Â© 2024 " ++ repo_name) html_doc in
  write_file (path blog_info) html_doc.

Fixpoint convert_blogs (w : world) (copied_images : gmap str str)
    (repo_name : str) (all_blogs : list blog_info) : io unit :=
  match all_blogs with
  | [] => mret ()
  | blog_info :: all_blogs' =>
      convert_blog w copied_images repo_name blog_info;;
      convert_blogs w copied_images repo_name all_blogs'
  end.

Definition date_text (d : option datetime) : str :=
  match d with
  | Some d => strftime d
  | None => py "No date"
  end.

Definition excerpt_of (w : world) (blog : blog_info) : io str :=
  try_catch
    (md_content ← open_read w HomePage (md_file blog);
     mret (excerpt_of_content (content_only md_content)))
    (mret (py "No preview available...")).

Definition article_card (blog : blog_info) (date_str excerpt : str) : str :=
  pyq "
                <article class=~article-card~ onclick=~location.href='"
  ++ path blog
  ++ pyq "'~>
                    <div class=~article-image~>ðŸ§ </div>
                    <div class=~article-content~>
                        <h3 class=~article-title~>"
  ++ py_str (title blog)
  ++ pyq "</h3>
                        <div class=~article-date~>"
  ++ date_str
  ++ pyq "</div>
                        <p class=~article-excerpt~>"
  ++ excerpt
  ++ pyq "</p>
                        <a href=~"
  ++ path blog
  ++ pyq "~ class=~read-more~>Read More â†’</a>
                    </div>
                </article>
".

Fixpoint articles_html_of (w : world) (blogs : list blog_info)
    (articles_html : str) : io str :=
  match blogs with
  | [] => mret articles_html
  | blog :: blogs' =>
      excerpt ← excerpt_of w blog;
      let date_str := date_text (date blog) in
      articles_html_of w blogs'
        (articles_html ++ article_card blog date_str excerpt)
  end.

(** [generate_home_page]: without the template file it prints a message
    and returns. *)
Definition generate_home_page (w : world) (published_blogs : list blog_info)
    (repo_name : str) : io unit :=
  articles_html ← articles_html_of w (take 10 published_blogs) [];
  match template_file w (py "blog_home.template") with
  | None => mret ()
  | Some template_content =>
      let home_content :=
        PyStr.replace (py "{{SITE_TITLE}}") repo_name template_content in
      let home_content :=
        PyStr.replace (py "{{ARTICLES_CONTENT}}") articles_html home_content in
      let home_content :=
        PyStr.replace (py "{{COPYRIGHT}}") (py "Â© 2024 " ++ repo_name)
          home_content in
      write_file (py "index.html") home_content
  end.


(** [generate_blog_site(repo_dir, repo_url)] *)
Definition generate_blog_site (w : world) (repo_url : str) : io unit :=
  let repo_name := extract_repo_name repo_url in
  if negb (blogs_dir_exists w) then mret ()
  else
    recreate_output;;
    copied_images ← copy_assets_io w;
    let md_files := find_md_files (walk w) in
    '(published_blogs, all_blogs) ← collect_files w md_files ([], []);
    let published_blogs := list_sort sort_key datetime_lt true published_blogs in
    let all_blogs := list_sort sort_key datetime_lt true all_blogs in
    convert_blogs w copied_images repo_name all_blogs;;
    generate_home_page w published_blogs repo_name.

End Run.

End MdToHtml.

(** * Notions used to state further properties *)

(** [sep] occurs in [s]. *)
Definition occurs (sep s : str) : Prop := ∃ a b, s = a ++ sep ++ b.

(** Every line printed names a file of the output directory that holds
    the copy of a file of that name found in a directory of the walk. *)
Definition sources_inv (walk : list (str * list str)) (st : assets) : Prop :=
  ∀ file dst, (file, dst) ∈ printed st →
    ∃ root files,
      (root, files) ∈ walk ∧ file ∈ files ∧
      images_dir st !! dst = Some (OsPath.join root file).

(** Without two image files of one name: every line printed keeps the
    name, and the output directory holds the names seen. *)
Definition plain_inv (seen : list str) (st : assets) : Prop :=
  printed st = (λ f, (f, f)) <$> filter (λ f, is_image f = true) seen ∧
  dom (images_dir st) = list_to_set (filter (λ f, is_image f = true) seen).

(** The excerpt shown for a record on the home page. *)
Definition home_excerpt (w : world) (blog : blog_info) : str :=
  match read_file w HomePage (md_file blog) with
  | Some md_content => excerpt_of_content (content_only md_content)
  | None => py "No preview available..."
  end.

(** The output path of a document, from its status and its file name. *)
Definition page_path (status : value) (md_file : str) : str :=
  (if eq_str status (py "published") then py "published" else py "draft")
  ++ py "/"
  ++ PyStr.replace (py ".md") (py ".html") (OsPath.basename md_file).

Section Cards.
Context `{Libraries}.

(** The cards of the home page of [blog_generator.py] for [blogs]. *)
Definition cards (w : world) (blogs : list blog_info) : str :=
  mjoin ((λ blog, BlogGenerator.article_card blog
                    (BlogGenerator.date_text (date blog)) (home_excerpt w blog))
         <$> blogs).

(** The same for [md_to_html.py]. *)
Definition md_cards (w : world) (blogs : list blog_info) : str :=
  mjoin ((λ blog, MdToHtml.article_card blog
                    (MdToHtml.date_text (date blog)) (home_excerpt w blog))
         <$> blogs).

(** The record of a document is made of its file name and of what
    [extract_metadata] returns on its text at the first reading. *)
Definition record_of (w : world) (blog : blog_info) : Prop :=
  ∃ md_content,
    read_file w FirstPass (md_file blog) = Some md_content ∧
    extract_metadata md_content
    = Ok (title blog, date blog, status blog, author blog, tags blog) ∧
    path blog = page_path (status blog) (md_file blog).



(** The home page that [md_to_html.py] writes from [template_content]. *)
Definition md_home_page (w : world) (published_blogs : list blog_info)
    (repo_name template_content : str) : str :=
  PyStr.replace (py "{{COPYRIGHT}}") (py "Â© 2024 " ++ repo_name)
    (PyStr.replace (py "{{ARTICLES_CONTENT}}")
       (md_cards w (take 10 published_blogs))
       (PyStr.replace (py "{{SITE_TITLE}}") repo_name template_content)).

End Cards.

(** A plain name of the rename map: no directory separator, no closing
    bracket, no closing parenthesis. *)
Definition plain_name (n : str) : Prop :=
  (OsPath.sep ∉ n) ∧ ("]"%char ∉ n) ∧ (")"%char ∉ n).

(** * Sample inputs *)

Module Sample.

(** The double quote. *)
Definition dq : ascii := "034"%char.

Definition grid_open : str :=
  py "<div class=" ++ [dq] ++ py "articles-grid" ++ [dq] ++ py ">".

(** The substitution of the articles grid for a replacement without
    backslash: from each opening tag to the first [</div>] after it. *)
Fixpoint sub_grid (fuel : nat) (repl s : str) : str :=
  match fuel with
  | 0 => s
  | S f =>
      match PyStr.cut grid_open s with
      | None => s
      | Some (a, b) =>
          match PyStr.cut (py "</div>") b with
          | None => s
          | Some (_, c) => a ++ repl ++ sub_grid f repl c
          end
      end
  end.

(** The libraries on the texts of the samples: two frontmatter blocks, a
    date, and bodies of one plain paragraph.  On a header whose date has
    the shape of a date and names no day of the calendar, the loader
    builds the date itself and raises the [ValueError] of
    [datetime.date]. *)
#[local] Instance libs : Libraries := {|
  safe_load text :=
    if decide (text = py "title: Hello
date: 2024-03-01
status: published") then
      Ok (VDict [(VStr (py "title"), VStr (py "Hello"));
                 (VStr (py "date"), VDate 2024 3 1);
                 (VStr (py "status"), VStr (py "published"))])
    else if decide (text = py "title: Plan
date: next week
status: published") then
      Ok (VDict [(VStr (py "title"), VStr (py "Plan"));
                 (VStr (py "date"), VStr (py "next week"));
                 (VStr (py "status"), VStr (py "published"))])
    else if decide (text = py "just a sentence") then
      Ok (VStr (py "just a sentence"))
    else if decide (text = py "title: Hello
date: 2024-02-30
status: published") then
      Raise ValueError
    else if decide (text = py "title: a\d
status: published") then
      Ok (VDict [(VStr (py "title"), VStr (py "a\d"));
                 (VStr (py "status"), VStr (py "published"))])
    else Raise YAMLError;
  py_str v :=
    match v with
    | VStr s => s
    | VDate 2024 3 1 => py "2024-03-01"
    | _ => py "?"
    end;
  strptime s :=
    if decide (s = py "2024-03-01")
    then Some {| year := 2024; month := 3; day := 1 |} else None;
  strftime d := py "March 01, 2024";
  markdown text := py "<p>" ++ text ++ py "</p>";
  re_sub_grid repl s :=
    if bool_decide ("\"%char ∈ repl) then Raise ReError
    else Ok (sub_grid (length s) repl s)
|}.

(** A record as [generate_blog_site] builds it for [blogs/<name>.md]. *)
Definition blog (name : string) (d : option datetime) (st : string)
    : blog_info :=
  {| title := VStr (py name);
     path := py st ++ py "/" ++ py name ++ py ".html";
     date := d;
     status := VStr (py st);
     author := VStr [];
     tags := VList [];
     md_file := py "temp_repo/blogs/" ++ py name ++ py ".md" |}.

Definition jan : blog_info :=
  blog "jan" (Some {| year := 2024; month := 1; day := 1 |}) "published".
Definition jun : blog_info :=
  blog "jun" (Some {| year := 2024; month := 6; day := 1 |}) "published".
Definition nodate : blog_info := blog "nodate" None "published".
Definition undated : blog_info := blog "undated" None "published".
Definition wip : blog_info :=
  blog "wip" (Some {| year := 2025; month := 2; day := 3 |}) "draft".


(** A repository with one published document and one image. *)
Definition document : str := py "---
title: Hello
date: 2024-03-01
status: published
---
Hello world.".

(** [reread] tells whether the document can still be read when the home
    page is composed; [templates] are the template files present. *)
Definition repository (reread : bool) (templates : str → option str) : world :=
  {| blogs_dir_exists := true;
     walk := [(py "temp_repo/blogs", [py "a.md"; py "img.png"])];
     copy_ok := λ _, true;
     read_file st file_path :=
       if decide (file_path = py "temp_repo/blogs/a.md") then
         match st with
         | HomePage => if reread then Some document else None
         | _ => Some document
         end
       else None;
     template_file := templates |}.

Definition no_template : str → option str := λ _, None.


(** One document whose title holds a backslash escape that [re.sub] does
    not know in a replacement text; the document cannot be read again for
    the home page. *)
Definition escaped_title : world :=
  {| blogs_dir_exists := true;
     walk := [(py "temp_repo/blogs", [py "a.md"])];
     copy_ok := λ _, true;
     read_file st file_path :=
       if decide (file_path = py "temp_repo/blogs/a.md") then
         match st with
         | HomePage => None
         | _ => Some (py "---
title: a\d
status: published
---
Text.")
         end
       else None;
     template_file := no_template |}.

(** A document beside an image that cannot be copied, a dangling link for
    instance, listed after an image that can. *)
Definition dangling_image (templates : str → option str) : world :=
  {| blogs_dir_exists := true;
     walk := [(py "temp_repo/blogs", [py "a.md"; py "img.png"; py "x.png"])];
     copy_ok p := bool_decide (p ≠ py "temp_repo/blogs/x.png");
     read_file st file_path :=
       if decide (file_path = py "temp_repo/blogs/a.md")
       then Some document else None;
     template_file := templates |}.

(** A page template and no index template. *)
Definition page_template_only : str → option str := λ name,
  if decide (name = py "blog_post.template")
  then Some (py "<h1>{{TITLE}}</h1>{{CONTENT}}") else None.

(** Whether [s] holds [needle]. *)
Definition contains (needle s : str) : bool :=
  bool_decide (is_Some (PyStr.cut needle s)).

End Sample.

(** * Properties *)

(** ** The primitives on sample texts *)

Example splitext_png : OsPath.splitext (py "a.b.png") = (py "a.b", py ".png").
Proof. reflexivity. Qed.
Example splitext_hidden : OsPath.splitext (py ".bashrc") = (py ".bashrc", []).
Proof. reflexivity. Qed.
Example splitext_dots : OsPath.splitext (py "..x.gif") = (py "..x", py ".gif").
Proof. reflexivity. Qed.
Example basename_dir : OsPath.basename (py "a/b/c.png") = py "c.png".
Proof. reflexivity. Qed.
Example basename_slash : OsPath.basename (py "a/b/") = [].
Proof. reflexivity. Qed.
Example split_two : PyStr.split (py "---") 2 (py "---a---b---c") = [[]; py "a"; py "b---c"].
Proof. reflexivity. Qed.
Example strip_ex : PyStr.strip (py "  a b
 ") = py "a b".
Proof. reflexivity. Qed.
Example replace_ex : PyStr.replace (py ".md") (py ".html") (py "a.md.md") = py "a.html.html".
Proof. reflexivity. Qed.

Example endswith_md : PyStr.endswith (py "notes.md") (py ".md") = true.
Proof. reflexivity. Qed.
Example join_dir : OsPath.join (py "site/images") (py "a.png") = py "site/images/a.png".
Proof. reflexivity. Qed.
Example find_md_files_ex :
  find_md_files [(py "blogs", [py "a.md"; py "a.png"]); (py "blogs/x", [py "b.md"])]
  = [py "blogs/a.md"; py "blogs/x/b.md"].
Proof. reflexivity. Qed.
Example extract_repo_name_ex :
  MdToHtml.extract_repo_name (py "https://github.com/u/site.git/") = py "site".
Proof. reflexivity. Qed.

Example content_only_ex :
  content_only (py "---
title: T
---

Body --- text
") = py "Body --- text".
Proof. reflexivity. Qed.
Example uir_ex :
  BlogGenerator.update_image_references
    (py "a ![x](d/a.png) b ![y](q.gif) ![z]() !")
    {[ py "a.png" := py "a_1.png" ]}
  = py "a ![x](/images/a_1.png) b ![y](/images/q.gif) ![z]() !".
Proof. vm_compute. reflexivity. Qed.

(** ** The order of dates *)

Lemma datetime_lt_spec (a b : datetime) :
  datetime_lt a b = true ↔
  year a < year b ∨
  (year a = year b ∧ (month a < month b ∨ (month a = month b ∧ day a < day b))).
Proof.
  unfold datetime_lt.
  rewrite !orb_true_iff, !andb_true_iff, !orb_true_iff, !andb_true_iff,
    !Nat.ltb_lt, !Nat.eqb_eq.
  tauto.
Qed.

Lemma datetime_lt_false (a b : datetime) :
  datetime_lt a b = false ↔ ¬ datetime_lt a b = true.
Proof. destruct (datetime_lt a b); naive_solver. Qed.

Lemma datetime_lt_irrefl (a : datetime) : datetime_lt a a = false.
Proof. rewrite datetime_lt_false, datetime_lt_spec. lia. Qed.

Lemma datetime_le_trans (a b c : datetime) :
  datetime_lt b a = false → datetime_lt c b = false → datetime_lt c a = false.
Proof. rewrite !datetime_lt_false, !datetime_lt_spec. lia. Qed.

Lemma datetime_lt_total (a b : datetime) :
  datetime_lt a b = false → datetime_lt b a = false → a = b.
Proof.
  rewrite !datetime_lt_false, !datetime_lt_spec. intros Hab Hba.
  destruct a as [ya ma da], b as [yb mb db]; simpl in *.
  f_equal; lia.
Qed.

Lemma datetime_lt_asym (a b : datetime) :
  datetime_lt a b = true → datetime_lt b a = false.
Proof. rewrite datetime_lt_false, !datetime_lt_spec. lia. Qed.

(** ** The stable sort *)

Section ListSortFacts.
Context {A K : Type} (key : A → K) (lt : K → K → bool).
Hypothesis lt_asym : ∀ a b, lt a b = true → lt b a = false.
Hypothesis le_trans : ∀ a b c, lt b a = false → lt c b = false → lt c a = false.

Lemma insert_sorted_Permutation x l : insert_sorted key lt x l ≡ₚ x :: l.
Proof.
  induction l as [|y l IH]; simpl; [done|].
  destruct (lt (key y) (key x)); [|done].
  rewrite IH. apply Permutation_swap.
Qed.

Lemma stable_sort_Permutation l : stable_sort key lt l ≡ₚ l.
Proof.
  induction l as [|x l IH]; simpl; [done|].
  by rewrite insert_sorted_Permutation, IH.
Qed.

Lemma insert_sorted_ascending x l :
  StronglySorted (ascending key lt) l → StronglySorted (ascending key lt) (insert_sorted key lt x l).
Proof.
  induction 1 as [|y l Hl IH Hy]; simpl.
  { repeat constructor. }
  destruct (lt (key y) (key x)) eqn:Hyx.
  - constructor; [done|].
    rewrite insert_sorted_Permutation. constructor; [|done].
    unfold ascending. by apply lt_asym.
  - constructor; [by constructor|].
    constructor; [done|].
    eapply Forall_impl; [exact Hy|]. unfold ascending. intros z Hz.
    by eapply le_trans.
Qed.

Lemma stable_sort_ascending l : StronglySorted (ascending key lt) (stable_sort key lt l).
Proof.
  induction l as [|x l IH]; simpl; [constructor|].
  by apply insert_sorted_ascending.
Qed.

Lemma StronglySorted_reverse_flip (R : relation A) l :
  StronglySorted R l → StronglySorted (flip R) (reverse l).
Proof.
  induction 1 as [|x l Hl IH Hx]; [constructor|].
  rewrite reverse_cons. apply StronglySorted_app_2; [|done|repeat constructor].
  intros a b Ha Hb. apply list_elem_of_singleton in Hb as ->.
  rewrite Forall_forall in Hx. apply Hx. by apply elem_of_reverse.
Qed.

(** Stability: the records of any class [P] closed under equal keys stay in
    their order. *)
Section Stable.
Context (P : A → Prop) `{!∀ x, Decision (P x)}.
Hypothesis P_lt : ∀ x y, P x → P y → lt (key y) (key x) = false.

Lemma insert_sorted_filter x l :
  filter P (insert_sorted key lt x l) = filter P (x :: l).
Proof.
  induction l as [|y l IH]; simpl; [done|].
  destruct (lt (key y) (key x)) eqn:Hyx; [|done].
  rewrite !filter_cons in *. rewrite IH.
  destruct (decide (P y)) as [Hy|]; [|done].
  destruct (decide (P x)) as [Hx|]; [|done].
  rewrite (P_lt x y Hx Hy) in Hyx. done.
Qed.

Lemma stable_sort_filter l : filter P (stable_sort key lt l) = filter P l.
Proof.
  induction l as [|x l IH]; simpl; [done|].
  rewrite insert_sorted_filter, !filter_cons. by rewrite IH.
Qed.

Lemma list_sort_filter rev l : filter P (list_sort key lt rev l) = filter P l.
Proof.
  destruct rev; simpl; [|apply stable_sort_filter].
  by rewrite filter_reverse, stable_sort_filter, filter_reverse, reverse_involutive.
Qed.

End Stable.

Lemma list_sort_Permutation rev l : list_sort key lt rev l ≡ₚ l.
Proof.
  destruct rev; simpl; [|apply stable_sort_Permutation].
  by rewrite reverse_Permutation, stable_sort_Permutation, reverse_Permutation.
Qed.

Lemma list_sort_descending l : StronglySorted (descending key lt) (list_sort key lt true l).
Proof. apply (StronglySorted_reverse_flip (ascending key lt)), stable_sort_ascending. Qed.

End ListSortFacts.

(** ** The published ordering *)

Lemma eq_str_true (v : value) (s : str) : eq_str v s = true ↔ v = VStr s.
Proof.
  destruct v; simpl; try (split; [done|intros [=]]).
  rewrite bool_decide_eq_true. naive_solver.
Qed.

Lemma elem_of_published_of (x : blog_info) (all_blogs : list blog_info) :
  x ∈ published_of all_blogs ↔ x ∈ all_blogs ∧ status x = VStr (py "published").
Proof.
  unfold published_of. rewrite list_elem_of_filter, eq_str_true. tauto.
Qed.

(** C3. The published ordering holds exactly the records whose status is
    [published], each as often as discovered; it is sorted by date,
    newest first, a record without date counting as [datetime.min]; records
    of equal date keep their discovery order; and nothing dated later than
    [datetime.min] follows a record without date.  Documents dated
    2024-01-01 and 2024-06-01 and one without date come out as
    2024-06-01, 2024-01-01, no date. *)
Theorem published_ordering_spec (all_blogs : list blog_info) :
  let ordering := published_ordering all_blogs in
  (ordering ≡ₚ published_of all_blogs ∧
   ∀ x, x ∈ ordering ↔ x ∈ all_blogs ∧ status x = VStr (py "published")) ∧
  StronglySorted
    (λ a b, datetime_lt (default datetime_min (date a))
                        (default datetime_min (date b)) = false) ordering ∧
  (∀ d, filter (λ x, default datetime_min (date x) = d) ordering
        = filter (λ x, default datetime_min (date x) = d)
            (published_of all_blogs)) ∧
  (∀ i j a b, i < j → ordering !! i = Some a → ordering !! j = Some b →
     date a = None →
     datetime_lt datetime_min (default datetime_min (date b)) = false) ∧
  (∀ a b c,
     all_blogs = [a; b; c] →
     status a = VStr (py "published") → status b = VStr (py "published") →
     status c = VStr (py "published") →
     date a = Some {| year := 2024; month := 1; day := 1 |} →
     date b = Some {| year := 2024; month := 6; day := 1 |} →
     date c = None →
     ordering = [b; a; c]).
Proof.
  intros ordering.
  assert (Hperm : ordering ≡ₚ published_of all_blogs)
    by apply list_sort_Permutation.
  assert (Hsorted : StronglySorted (descending sort_key datetime_lt) ordering)
    by (apply list_sort_descending;
        eauto using datetime_lt_asym, datetime_le_trans).
  split_and!.
  - done.
  - intros x. by rewrite Hperm, elem_of_published_of.
  - exact Hsorted.
  - intros d. apply (list_sort_filter sort_key datetime_lt (λ x, sort_key x = d)).
    intros x y Hx Hy. rewrite Hx, Hy. apply datetime_lt_irrefl.
  - intros i j a b Hij Ha Hb Hdate.
    apply lookup_lt_Some in Hb as Hj.
    rewrite <-(take_drop_middle ordering i a Ha) in Hsorted, Hb.
    apply StronglySorted_app_1_r, StronglySorted_cons in Hsorted as [Hall _].
    rewrite Forall_forall in Hall.
    assert (Hlen : length (take i ordering) = i)
      by (apply length_take_le; apply lookup_lt_Some in Ha; lia).
    rewrite lookup_app_r, Hlen in Hb by lia.
    destruct (j - i) as [|k] eqn:Hk; [lia|]. simpl in Hb.
    apply list_elem_of_lookup_2, Hall in Hb.
    unfold descending, sort_key in Hb. by rewrite Hdate in Hb.
  - intros a b c -> Ha Hb Hc Hda Hdb Hdc.
    unfold ordering, published_ordering, published_of.
    rewrite !filter_cons, filter_nil.
    rewrite !decide_True by by rewrite eq_str_true.
    assert (Ka : sort_key a = {| year := 2024; month := 1; day := 1 |})
      by (unfold sort_key; by rewrite Hda).
    assert (Kb : sort_key b = {| year := 2024; month := 6; day := 1 |})
      by (unfold sort_key; by rewrite Hdb).
    assert (Kc : sort_key c = datetime_min)
      by (unfold sort_key; by rewrite Hdc).
    unfold list_sort. cbn -[sort_key]. rewrite Ka, Kb. cbn -[sort_key].
    rewrite Ka, Kb, Kc. reflexivity.
Qed.

Lemma published_ordering_spec_witness :
  published_ordering [Sample.wip; Sample.nodate; Sample.jan; Sample.undated; Sample.jun]
    = [Sample.jun; Sample.jan; Sample.nodate; Sample.undated] ∧
  datetime_lt datetime_min (default datetime_min (date Sample.undated)) = false ∧
  published_ordering [Sample.jan; Sample.jun; Sample.nodate]
    = [Sample.jun; Sample.jan; Sample.nodate].
Proof.
  split; [reflexivity|]. split.
  - pose proof (published_ordering_spec
      [Sample.wip; Sample.nodate; Sample.jan; Sample.undated; Sample.jun])
      as (_ & _ & _ & Hlast & _).
    apply (Hlast 2 3 Sample.nodate Sample.undated); [lia|reflexivity..].
  - pose proof (published_ordering_spec [Sample.jan; Sample.jun; Sample.nodate])
      as (_ & _ & _ & _ & Hex).
    apply Hex; reflexivity.
Defined.

(** ** Splitting at the delimiter *)

Lemma startswith_spec (s p : str) :
  PyStr.startswith s p = true ↔ ∃ t, s = p ++ t.
Proof.
  revert s. induction p as [|a p IH]; intros s.
  { destruct s; simpl; (split; [intros _; eexists; reflexivity|done]). }
  destruct s as [|b s]; simpl; [split; [done|intros [? [=]]]|].
  destruct (decide (a = b)) as [->|Hne].
  - rewrite IH. split; intros [t Ht]; exists t; simplify_eq/=; done.
  - split; [done|]. intros [t [=]]. congruence.
Qed.

Lemma startswith_drop (s p : str) :
  PyStr.startswith s p = true → s = p ++ drop (length p) s.
Proof.
  intros [t ->]%startswith_spec. by rewrite drop_app_length.
Qed.

Lemma cut_unfold (sep s : str) :
  PyStr.cut sep s =
  if PyStr.startswith s sep then Some ([], drop (length sep) s)
  else match s with
       | [] => None
       | c :: s' =>
           match PyStr.cut sep s' with
           | Some (a, b) => Some (c :: a, b)
           | None => None
           end
       end.
Proof. by destruct s. Qed.

Lemma cut_Some (sep s a b : str) :
  PyStr.cut sep s = Some (a, b) → s = a ++ sep ++ b.
Proof.
  revert a b. induction s as [|c s IH]; intros a b; rewrite cut_unfold.
  - destruct (PyStr.startswith [] sep) eqn:Hs; [|done].
    intros [= <- <-]. by apply startswith_drop in Hs.
  - destruct (PyStr.startswith (c :: s) sep) eqn:Hs.
    + intros [= <- <-]. by apply startswith_drop in Hs.
    + destruct (PyStr.cut sep s) as [[a' b']|]; [|done].
      intros [= <- <-]. simpl. f_equal. by apply IH.
Qed.

Lemma cut_None (sep s : str) :
  PyStr.cut sep s = None → ∀ a b, s ≠ a ++ sep ++ b.
Proof.
  induction s as [|c s IH]; rewrite cut_unfold.
  - destruct (PyStr.startswith [] sep) eqn:Hs; [done|]. intros _ a b Heq.
    destruct a; [|done]. simpl in Heq.
    assert (PyStr.startswith [] sep = true) by (apply startswith_spec; eauto).
    congruence.
  - destruct (PyStr.startswith (c :: s) sep) eqn:Hs; [done|].
    destruct (PyStr.cut sep s) as [[a' b']|] eqn:Hcut; [done|].
    intros _ a b Heq. destruct a as [|c' a]; simpl in Heq.
    + assert (PyStr.startswith (c :: s) sep = true)
        by (apply startswith_spec; eauto).
      congruence.
    + injection Heq as -> Heq. by eapply IH.
Qed.

(** A text in which the delimiter does not occur twice is left whole by
    the frontmatter removal. *)
Lemma content_only_fewer_than_two (md_content : str) :
  (∀ a b c, md_content ≠ a ++ delimiter ++ b ++ delimiter ++ c) →
  content_only md_content = md_content.
Proof.
  intros Hocc. unfold content_only. simpl.
  destruct (PyStr.cut delimiter md_content) as [[a r]|] eqn:H1; [|done].
  destruct (PyStr.cut delimiter r) as [[b c]|] eqn:H2; [|done].
  apply cut_Some in H1, H2. subst. by destruct (Hocc a b c).
Qed.

(** With two or more delimiters the third part is taken, whether or not
    the text begins with the delimiter. *)
Lemma content_only_three_parts (md_content a r b c : str) :
  PyStr.cut delimiter md_content = Some (a, r) →
  PyStr.cut delimiter r = Some (b, c) →
  content_only md_content = PyStr.strip c.
Proof. intros H1 H2. unfold content_only. simpl. by rewrite H1, H2. Qed.

(** C4. A text that does not begin with the delimiter but carries it twice
    (two horizontal rules of a Markdown body) loses everything up to the
    second one: the body rendered and excerpted is not the original text,
    although [extract_metadata] treats the same text as having no
    frontmatter. *)
Theorem content_only_drops_body_text :
  let md_content := py "intro
---
middle
---
end" in
  PyStr.startswith md_content delimiter = false ∧
  content_only md_content = py "end" ∧
  content_only md_content ≠ md_content ∧
  ∀ L : Libraries, extract_metadata md_content = Ok default_metadata.
Proof. split_and!; [reflexivity|reflexivity|by intros [=]|reflexivity]. Qed.

(** ** Excerpts *)

Lemma strip_markers_filter (s : str) :
  strip_markers s = filter (λ c, is_marker c = false) s.
Proof.
  induction s as [|c s IH]; simpl; [done|].
  rewrite filter_cons. destruct (is_marker c); simpl; by rewrite IH.
Qed.

Lemma strip_markers_plain (s : str) :
  Forall (λ c, is_marker c = false) s → strip_markers s = s.
Proof. induction 1 as [|c s Hc _ IH]; simpl; [done|]. by rewrite Hc, IH. Qed.

Lemma strip_markers_app (s t : str) :
  strip_markers (s ++ t) = strip_markers s ++ strip_markers t.
Proof. by rewrite !strip_markers_filter, filter_app. Qed.

Lemma is_marker_spec (c : ascii) :
  is_marker c = true ↔ c = "#"%char ∨ c = "*"%char ∨ c = "`"%char.
Proof.
  unfold is_marker. rewrite !orb_true_iff, !bool_decide_eq_true. tauto.
Qed.

(** C7. The excerpt is the body cut to its first 150 characters, with
    [...] appended exactly when the body is longer than 150 characters, and
    with every [#], [*] and backquote then removed.  A body of 200 plain
    characters gives its first 150 characters and [...]; a plain body of
    100 characters gives itself. *)
Theorem excerpt_of_content_spec (content : str) :
  (150 < length content →
   excerpt_of_content content
   = filter (λ c, is_marker c = false) (take 150 content) ++ py "...") ∧
  (length content ≤ 150 →
   excerpt_of_content content = filter (λ c, is_marker c = false) content) ∧
  Forall (λ c, c ≠ "#"%char ∧ c ≠ "*"%char ∧ c ≠ "`"%char)
    (excerpt_of_content content) ∧
  (Forall (λ c, is_marker c = false) content →
   (length content = 200 →
    excerpt_of_content content = take 150 content ++ py "..." ∧
    length (excerpt_of_content content) = 153) ∧
   (length content = 100 → excerpt_of_content content = content)).
Proof.
  unfold excerpt_of_content. split_and!.
  - intros Hlen. apply Nat.ltb_lt in Hlen as ->.
    by rewrite strip_markers_app, strip_markers_filter.
  - intros Hlen. destruct (150 <? length content) eqn:Hlt.
    { apply Nat.ltb_lt in Hlt. lia. }
    apply strip_markers_filter.
  - rewrite strip_markers_filter. apply Forall_forall.
    intros c [Hc _]%list_elem_of_filter.
    split_and!; intros ->; done.
  - intros Hplain. split; intros Hlen; rewrite Hlen; simpl.
    + rewrite strip_markers_app, strip_markers_plain
        by by apply Forall_take.
      split; [done|]. rewrite length_app, length_take, Hlen. reflexivity.
    + by apply strip_markers_plain.
Qed.

Lemma excerpt_of_content_spec_witness :
  excerpt_of_content (replicate 200 "a"%char)
    = replicate 150 "a"%char ++ py "..." ∧
  excerpt_of_content (replicate 100 "a"%char) = replicate 100 "a"%char ∧
  excerpt_of_content (py "# A *b*") = py " A b".
Proof.
  split_and!.
  - pose proof (excerpt_of_content_spec (replicate 200 "a"%char))
      as (_ & _ & _ & Hplain).
    destruct Hplain as [H200 _].
    { apply Forall_forall. intros c ->%elem_of_replicate_inv. reflexivity. }
    destruct H200 as [-> _]; reflexivity.
  - pose proof (excerpt_of_content_spec (replicate 100 "a"%char))
      as (_ & _ & _ & Hplain).
    destruct Hplain as [_ H100].
    { apply Forall_forall. intros c ->%elem_of_replicate_inv. reflexivity. }
    apply H100. reflexivity.
  - pose proof (excerpt_of_content_spec (py "# A *b*")) as (_ & -> & _).
    + reflexivity.
    + simpl. lia.
Defined.
(** ** Asset de-duplication *)

Lemma py_inj : Inj (=) (=) py.
Proof.
  intros s t Heq. unfold py in Heq.
  by rewrite <-(string_of_list_ascii_of_string s),
    <-(string_of_list_ascii_of_string t), Heq.
Qed.

Lemma suffixed_inj (file : str) : Inj (=) (=) (suffixed file).
Proof.
  intros i j. unfold suffixed. destruct (OsPath.splitext file) as [name ext].
  intros Heq. apply app_inv_head, app_inv_head, app_inv_tail in Heq.
  apply py_inj in Heq. by apply (inj pretty) in Heq.
Qed.

(** The loop, entered at the candidate of index [counter]: the occupied
    candidates from [counter] on lie in a finite set [D]; each turn removes
    one of them, so [size D] turns reach a free one. *)
Lemma free_name_loop (file : str) (dir : gmap str str) (n : nat) :
  ∀ (D : gset str) (counter : nat),
    (∀ k, counter ≤ k → is_Some (dir !! suffixed file k) → suffixed file k ∈ D) →
    size D ≤ n →
    ∃ k, counter ≤ k ∧ dir !! suffixed file k = None ∧
      free_name n dir file (suffixed file counter) (S counter)
      = Some (suffixed file k).
Proof.
  induction n as [|n IH]; intros D counter Hcover Hsize.
  - exists counter. assert (D = ∅) as ->.
    { apply leibniz_equiv, size_empty_iff. lia. }
    destruct (dir !! suffixed file counter) eqn:Hl.
    { exfalso.
      apply (not_elem_of_empty (C:=gset str) (suffixed file counter)), Hcover;
        [lia|eauto]. }
    split_and!; [lia|done|]. simpl. by rewrite Hl.
  - destruct (dir !! suffixed file counter) eqn:Hl.
    + destruct (IH (D ∖ {[suffixed file counter]}) (S counter))
        as (k & Hk & Hfree & Hres).
      * intros k Hk Hocc. apply elem_of_difference. split.
        { apply Hcover; [lia|done]. }
        rewrite elem_of_singleton. intros Heq%suffixed_inj. lia.
      * assert (suffixed file counter ∈ D) by (apply Hcover; [lia|eauto]).
        rewrite size_difference by set_solver.
        rewrite size_singleton.
        assert (size D ≠ 0); [|lia].
        apply size_non_empty_iff. set_solver.
      * exists k. split_and!; [lia|done|]. simpl. by rewrite Hl.
    + exists counter. split_and!; [lia|done|]. simpl. by rewrite Hl.
Qed.

(** The loop ends, on a name that is not in the directory: the file's own
    name or one of its suffixed names. *)
Lemma free_name_spec (file : str) (dir : gmap str str) :
  ∃ dst, free_name (S (size dir)) dir file file 1 = Some dst ∧
    dir !! dst = None ∧
    (dst = file ∨ ∃ k, 1 ≤ k ∧ dst = suffixed file k).
Proof.
  destruct (dir !! file) eqn:Hl.
  - destruct (free_name_loop file dir (size dir) (dom dir) 1)
      as (k & Hk & Hfree & Hres).
    + intros k _ Hocc. by apply elem_of_dom.
    + by rewrite size_dom.
    + exists (suffixed file k). split_and!; [|done|eauto].
      simpl. by rewrite Hl.
  - exists file. split_and!; [|done|by left]. simpl. by rewrite Hl.
Qed.
Lemma assets_inv_init (dir0 : gmap str str) :
  assets_inv dir0 []
    {| images_dir := dir0; copied_images := ∅; printed := [] |}.
Proof.
  constructor; simpl; try done.
  - set_solver.
  - intros n Hn. by apply elem_of_nil in Hn.
  - constructor.
Qed.

Lemma copy_file_inv (dir0 : gmap str str) (seen : list str)
    (root file : str) (st : assets) :
  assets_inv dir0 seen st →
  ∃ st', copy_file root file st = Some st' ∧
    assets_inv dir0 (seen ++ [file]) st'.
Proof.
  intros [Hkept Hdom Hfresh Hnodup Hnames Hfiles Hmap].
  unfold copy_file. destruct (is_image file) eqn:Himg.
  - destruct (free_name_spec file (images_dir st))
      as (dst & -> & Hfree & Hform).
    simpl. eexists; split; [done|].
    assert (Hdir0 : dir0 !! dst = None) by by eapply lookup_weaken_None.
    constructor; simpl.
    + by apply insert_subseteq_r.
    + rewrite dom_insert_L, fmap_app, list_to_set_app_L, Hdom. simpl.
      set_solver.
    + intros n. rewrite fmap_app, elem_of_app. simpl.
      intros [?| ->%list_elem_of_singleton]; auto.
    + rewrite fmap_app. apply NoDup_app. split_and!; [done| |apply NoDup_singleton].
      intros n Hn ->%list_elem_of_singleton.
      apply not_elem_of_dom in Hfree. apply Hfree. rewrite Hdom. set_solver.
    + apply Forall_app. split; [done|]. by apply Forall_singleton.
    + rewrite fmap_app, filter_app, Hfiles. simpl.
      by rewrite filter_cons_True by done.
    + intros k. rewrite filter_app. destruct (decide (file = k)) as [->|Hne].
      * rewrite lookup_insert_eq, filter_cons_True by done.
        by rewrite filter_nil, last_snoc.
      * rewrite lookup_insert_ne, filter_cons_False by done.
        by rewrite filter_nil, app_nil_r.
  - exists st. split; [done|]. constructor; try done.
    rewrite filter_app, Hfiles, filter_cons_False by by rewrite Himg.
    by rewrite filter_nil, app_nil_r.
Qed.

Lemma copy_files_inv (dir0 : gmap str str) (root : str) (files : list str) :
  ∀ (seen : list str) (st : assets),
    assets_inv dir0 seen st →
    ∃ st', copy_files root files st = Some st' ∧
      assets_inv dir0 (seen ++ files) st'.
Proof.
  induction files as [|file files IH]; intros seen st Hinv; simpl.
  - exists st. by rewrite app_nil_r.
  - destruct (copy_file_inv dir0 seen root file st Hinv) as (st1 & -> & Hinv1).
    simpl. destruct (IH _ _ Hinv1) as (st2 & -> & Hinv2).
    exists st2. by rewrite <-app_assoc in Hinv2.
Qed.

Lemma copy_walk_inv (dir0 : gmap str str) (walk : list (str * list str)) :
  ∀ (seen : list str) (st : assets),
    assets_inv dir0 seen st →
    ∃ st', copy_walk walk st = Some st' ∧
      assets_inv dir0 (seen ++ walk_files walk) st'.
Proof.
  induction walk as [|[root files] walk IH]; intros seen st Hinv; simpl.
  - exists st. by rewrite app_nil_r.
  - destruct (copy_files_inv dir0 root files seen st Hinv) as (st1 & -> & Hinv1).
    simpl. destruct (IH _ _ Hinv1) as (st2 & -> & Hinv2).
    exists st2. split; [done|].
    unfold walk_files in *. simpl. by rewrite app_assoc.
Qed.

Lemma copy_assets_inv (walk : list (str * list str)) (dir0 : gmap str str) :
  ∃ st, copy_assets walk dir0 = Some st ∧
    assets_inv dir0 (walk_files walk) st.
Proof. apply (copy_walk_inv dir0 walk []), assets_inv_init. Qed.
Lemma splitext_go_app (seen : bool) (s name ext : str) :
  OsPath.splitext_go seen s = Some (name, ext) → name ++ ext = s.
Proof.
  revert seen name ext. induction s as [|c s IH]; intros seen name ext; simpl.
  { done. }
  destruct (OsPath.splitext_go _ s) as [[name' ext']|] eqn:Hgo.
  - intros [= <- <-]. simpl. f_equal. eauto.
  - destruct (bool_decide (c = OsPath.extsep) && seen); [|done].
    by intros [= <- <-].
Qed.

Lemma splitext_app (p : str) :
  (OsPath.splitext p).1 ++ (OsPath.splitext p).2 = p.
Proof.
  unfold OsPath.splitext.
  destruct (OsPath.splitext_go false p) as [[name ext]|] eqn:Hgo; simpl.
  - by eapply splitext_go_app.
  - apply app_nil_r.
Qed.

(** A suffixed name is longer than the name it comes from. *)
Lemma suffixed_length (file : str) (counter : nat) :
  length file < length (suffixed file counter).
Proof.
  unfold suffixed. rewrite <-(splitext_app file) at 1.
  destruct (OsPath.splitext file) as [name ext]. simpl.
  rewrite !length_app. simpl. rewrite length_app. lia.
Qed.

Lemma suffixed_ne (file : str) (counter : nat) : suffixed file counter ≠ file.
Proof.
  intros Heq. pose proof (suffixed_length file counter) as Hlen.
  rewrite Heq in Hlen. lia.
Qed.

(** The rename map has pairwise distinct values. *)
Lemma assets_inv_injective (dir0 : gmap str str) (seen : list str)
    (st : assets) (k1 k2 v : str) :
  assets_inv dir0 seen st →
  copied_images st !! k1 = Some v → copied_images st !! k2 = Some v →
  k1 = k2.
Proof.
  intros [_ _ _ Hnodup _ _ Hmap]. rewrite !Hmap, !fmap_Some.
  intros ([f1 n1] & Hl1 & ->) ([f2 n2] & Hl2 & Heq). simpl in *. subst n2.
  apply last_Some_elem_of, list_elem_of_filter in Hl1 as [<- Hin1].
  apply last_Some_elem_of, list_elem_of_filter in Hl2 as [<- Hin2].
  simpl. apply list_elem_of_lookup in Hin1 as [i Hi], Hin2 as [j Hj].
  assert (i = j) as ->.
  { eapply NoDup_lookup; [exact Hnodup| |]; rewrite list_lookup_fmap.
    - by rewrite Hi.
    - by rewrite Hj. }
  congruence.
Qed.

Lemma assets_inv_size (dir0 : gmap str str) (seen : list str) (st : assets) :
  assets_inv dir0 seen st →
  size (images_dir st)
  = size dir0 + length (filter (λ f, is_image f = true) seen).
Proof.
  intros [_ Hdom Hfresh Hnodup _ Hfiles _].
  rewrite <-Hfiles, length_fmap, <-(length_fmap snd).
  rewrite <-!size_dom, Hdom, size_union, size_list_to_set by
    (done || (intros n Hd Hn%elem_of_list_to_set; apply Hfresh in Hn;
              by apply not_elem_of_dom in Hn)).
  done.
Qed.
(** C2. [copy_assets] always returns, and never writes over a file of the
    output directory: the names it assigns are pairwise distinct and none
    was in the directory at the start, so every copy went to a name that
    was free when it was made; what the directory held is kept; the
    directory gains one file per image file of the tree; an assigned name
    is the file's own name or that name with a suffix [_1], [_2], ...
    before the extension; and the rename map has no value twice.  Two
    files of one name in two directories give two output files. *)
Theorem copy_assets_never_overwrites (walk : list (str * list str))
    (dir0 : gmap str str) :
  ∃ st, copy_assets walk dir0 = Some st ∧
    NoDup (printed st).*2 ∧
    (∀ n, n ∈ (printed st).*2 → dir0 !! n = None) ∧
    dir0 ⊆ images_dir st ∧
    dom (images_dir st) = dom dir0 ∪ list_to_set (printed st).*2 ∧
    (printed st).*1 = filter (λ f, is_image f = true) (walk_files walk) ∧
    size (images_dir st)
    = size dir0 + length (filter (λ f, is_image f = true) (walk_files walk)) ∧
    Forall (λ e, e.2 = e.1 ∨ ∃ k, 1 ≤ k ∧ e.2 = suffixed e.1 k) (printed st) ∧
    (∀ k1 k2 v, copied_images st !! k1 = Some v →
       copied_images st !! k2 = Some v → k1 = k2) ∧
    (∀ root1 root2 file, walk = [(root1, [file]); (root2, [file])] →
       dir0 = ∅ → is_image file = true →
       images_dir st
       = {[ file := OsPath.join root1 file;
            suffixed file 1 := OsPath.join root2 file ]} ∧
       size (images_dir st) = 2).
Proof.
  destruct (copy_assets_inv walk dir0) as (st & Hrun & Hinv).
  exists st. split; [done|].
  pose proof (assets_inv_size _ _ _ Hinv) as Hsize.
  pose proof Hinv as [Hkept Hdom Hfresh Hnodup Hnames Hfiles Hmap].
  split_and!; try done.
  - intros k1 k2 v. by apply assets_inv_injective with dir0 (walk_files walk).
  - intros root1 root2 file -> -> Himg.
    assert (Hne : file ≠ suffixed file 1) by (symmetry; apply suffixed_ne).
    unfold copy_assets in Hrun. simpl in Hrun. unfold copy_file in Hrun at 2.
    rewrite Himg in Hrun. simpl in Hrun. rewrite lookup_empty in Hrun.
    simpl in Hrun. unfold copy_file in Hrun. rewrite Himg in Hrun.
    simpl in Hrun. rewrite insert_empty in Hrun.
    rewrite lookup_singleton_eq, map_size_singleton in Hrun. simpl in Hrun.
    rewrite lookup_singleton_ne in Hrun by done. simpl in Hrun.
    injection Hrun as <-. simpl. split.
    + rewrite <-!insert_empty. by apply insert_insert_ne.
    + rewrite map_size_insert_None by by rewrite lookup_singleton_ne.
      by rewrite map_size_singleton.
Qed.

Lemma copy_assets_never_overwrites_witness :
  ∃ st,
    copy_assets [(py "blogs", [py "a.png"]); (py "blogs/x", [py "a.png"])] ∅
      = Some st ∧
    images_dir st = {[ py "a.png" := py "blogs/a.png";
                       py "a_1.png" := py "blogs/x/a.png" ]} ∧
    size (images_dir st) = 2.
Proof.
  destruct (copy_assets_never_overwrites
    [(py "blogs", [py "a.png"]); (py "blogs/x", [py "a.png"])] ∅)
    as (st & Hrun & _ & _ & _ & _ & _ & _ & _ & _ & Htwo).
  exists st. split; [exact Hrun|].
  apply (Htwo (py "blogs") (py "blogs/x") (py "a.png")); reflexivity.
Defined.

(** The tree of the witness, run: the second [a.png] is stored as
    [a_1.png] and the rename map holds that name. *)
Example copy_assets_two_files :
  (λ st, (map_to_list (images_dir st), map_to_list (copied_images st), printed st))
    <$> copy_assets [(py "blogs", [py "a.png"; py "notes.md"]);
                     (py "blogs/x", [py "a.png"])] ∅
  = Some ([(py "a.png", py "blogs/a.png"); (py "a_1.png", py "blogs/x/a.png")],
          [(py "a.png", py "a_1.png")],
          [(py "a.png", py "a.png"); (py "a.png", py "a_1.png")]).
Proof. vm_compute. reflexivity. Qed.
(** Two files named [a.png]: the first one met is stored as [a.png], and
    the key [a.png] of the returned map is bound to [a_1.png], the name of
    the second. *)
Lemma copy_assets_rebinds_key :
  ∃ st,
    copy_assets [(py "blogs", [py "a.png"]); (py "blogs/sub", [py "a.png"])] ∅
      = Some st ∧
    head (filter (λ e, e.1 = py "a.png") (printed st))
      = Some (py "a.png", py "a.png") ∧
    copied_images st !! py "a.png" = Some (py "a_1.png") ∧
    copied_images st !! py "a.png"
      ≠ snd <$> head (filter (λ e, e.1 = py "a.png") (printed st)).
Proof.
  eexists. split; [vm_compute; reflexivity|].
  split_and!; [vm_compute; reflexivity..|].
  vm_compute. intros [=].
Qed.

(** C1 (amended). [copy_assets] returns; the lines it prints list the
    image files of the tree in traversal order, each with the name assigned
    to it; a basename is a key of the rename map exactly when an image file
    of the tree has it; and the value bound to a key is the name assigned
    to the last file met with that basename. *)
Theorem copy_assets_key_binding (walk : list (str * list str))
    (dir0 : gmap str str) :
  ∃ st, copy_assets walk dir0 = Some st ∧
    (printed st).*1 = filter (λ f, is_image f = true) (walk_files walk) ∧
    (∀ k, is_Some (copied_images st !! k) ↔
          k ∈ walk_files walk ∧ is_image k = true) ∧
    (∀ k, copied_images st !! k
          = snd <$> last (filter (λ e, e.1 = k) (printed st))).
Proof.
  destruct (copy_assets_inv walk dir0) as (st & Hrun & Hinv).
  exists st. split; [done|].
  destruct Hinv as [_ _ _ _ _ Hfiles Hmap]. split_and!; [done| |done].
  intros k. rewrite Hmap, fmap_is_Some.
  transitivity (k ∈ (printed st).*1);
    [|rewrite Hfiles, list_elem_of_filter; tauto].
  rewrite list_elem_of_fmap. split.
  - intros [e He]. apply last_Some_elem_of, list_elem_of_filter in He as [<- He].
    eauto.
  - intros (e & -> & He).
    destruct (last (filter (λ e0, e0.1 = e.1) (printed st))) eqn:Hlast; [eauto|].
    apply last_None in Hlast.
    assert (Hin : e ∈ filter (λ e0, e0.1 = e.1) (printed st))
      by by apply list_elem_of_filter.
    rewrite Hlast in Hin. by apply elem_of_nil in Hin.
Qed.
(** ** The image pattern *)

Section ImagePatternFacts.
Import ImagePattern.

Lemma span_not_spec (c : ascii) (s run rest : str) :
  span_not c s = (run, rest) →
  s = run ++ rest ∧ (c ∉ run) ∧ (rest = [] ∨ ∃ r, rest = c :: r).
Proof.
  revert run rest. induction s as [|a s IH]; intros run rest; simpl.
  { intros [= <- <-]. split_and!; [done|apply not_elem_of_nil|by left]. }
  destruct (decide (a = c)) as [->|Hne].
  { intros [= <- <-]. split_and!; [done|apply not_elem_of_nil|eauto]. }
  destruct (span_not c s) as [run' rest'] eqn:Hs. intros [= <- <-].
  destruct (IH _ _ eq_refl) as (-> & Hrun & Hrest).
  split_and!; [done| |done]. rewrite not_elem_of_cons. auto.
Qed.

Lemma span_not_stop (c : ascii) (run r : str) :
  c ∉ run → span_not c (run ++ c :: r) = (run, c :: r).
Proof.
  induction run as [|a run IH]; simpl; intros Hrun.
  { by rewrite decide_True. }
  apply not_elem_of_cons in Hrun as [Hne Hrun].
  rewrite decide_False by done. by rewrite IH.
Qed.

Lemma span_not_all (c : ascii) (run : str) :
  c ∉ run → span_not c run = (run, []).
Proof.
  induction run as [|a run IH]; simpl; intros Hrun; [done|].
  apply not_elem_of_cons in Hrun as [Hne Hrun].
  rewrite decide_False by done. by rewrite IH.
Qed.

Lemma match_here_unfold (s : str) :
  match_here s =
  match s with
  | "!"%char :: "["%char :: s1 =>
      let '(alt_text, s2) := span_not "]"%char s1 in
      match s2 with
      | "]"%char :: s3 =>
          match match_path s3 with
          | Some (image_path, rest) => Some (alt_text, image_path, rest)
          | None => None
          end
      | _ => None
      end
  | _ => None
  end.
Proof.
  unfold match_here, match_path.
  repeat (case_match; simplify_eq/=; try done).
Qed.

Lemma match_path_Some (s3 path rest : str) :
  match_path s3 = Some (path, rest) ↔
  s3 = "("%char :: path ++ ")"%char :: rest ∧ path ≠ [] ∧ (")"%char ∉ path).
Proof.
  split.
  - unfold match_path. destruct s3 as [|c s3]; [done|].
    destruct (decide (c = "("%char)) as [->|Hne];
      [|by repeat (case_match; simplify_eq/=)].
    destruct (span_not ")"%char s3) as [p s4] eqn:Hspan.
    apply span_not_spec in Hspan as (-> & Hp & _).
    destruct p as [|a p]; [done|].
    destruct s4 as [|d s4]; [done|].
    destruct (decide (d = ")"%char)) as [->|Hne];
      [|by repeat (case_match; simplify_eq/=)].
    by intros [= <- <-].
  - intros (-> & Hne & Hp). unfold match_path.
    rewrite span_not_stop by done. by destruct path.
Qed.

Lemma match_here_Some (s alt_text path rest : str) :
  match_here s = Some (alt_text, path, rest) ↔
  s = "!"%char :: "["%char :: alt_text
        ++ "]"%char :: "("%char :: path ++ ")"%char :: rest ∧
  ("]"%char ∉ alt_text) ∧ path ≠ [] ∧ (")"%char ∉ path).
Proof.
  rewrite match_here_unfold. split.
  - destruct s as [|c0 [|c1 s1]]; [done| |].
    { by repeat (case_match; simplify_eq/=). }
    destruct (decide (c0 = "!"%char)) as [->|Hne];
      [|by repeat (case_match; simplify_eq/=)].
    destruct (decide (c1 = "["%char)) as [->|Hne];
      [|by repeat (case_match; simplify_eq/=)].
    destruct (span_not "]"%char s1) as [a s2] eqn:Hspan.
    apply span_not_spec in Hspan as (-> & Ha & _).
    destruct s2 as [|c2 s3]; [done|].
    destruct (decide (c2 = "]"%char)) as [->|Hne];
      [|by repeat (case_match; simplify_eq/=)].
    destruct (match_path s3) as [[p r]|] eqn:Hpath; [|done].
    apply match_path_Some in Hpath as (-> & Hp1 & Hp2).
    by intros [= <- <- <-].
  - intros (-> & Ha & Hne & Hp).
    rewrite span_not_stop by done.
    assert (match_path ("("%char :: path ++ ")"%char :: rest) = Some (path, rest))
      as -> by by apply match_path_Some.
    done.
Qed.

Lemma match_here_shorter (s alt_text path rest : str) :
  match_here s = Some (alt_text, path, rest) → length rest < length s.
Proof.
  intros (-> & _)%match_here_Some. simpl.
  rewrite length_app. simpl. rewrite length_app. simpl. lia.
Qed.

Lemma embed_cons (alt_text prefix name : str) :
  embed alt_text prefix name
  = "!"%char :: "["%char :: alt_text
      ++ "]"%char :: "("%char :: (prefix ++ name) ++ [")"%char].
Proof. unfold embed. simpl. by rewrite <-!app_assoc. Qed.

Lemma embed_app (alt_text prefix name rest : str) :
  embed alt_text prefix name ++ rest
  = "!"%char :: "["%char :: alt_text
      ++ "]"%char :: "("%char :: (prefix ++ name) ++ ")"%char :: rest.
Proof. unfold embed. simpl. by repeat (rewrite <-app_assoc; simpl). Qed.

(** One turn of [re.sub] does not depend on the fuel left, once there is
    enough of it. *)
Lemma sub_go_fuel (repl : str → str → str) (fuel1 : nat) :
  ∀ (fuel2 : nat) (s : str),
    length s ≤ fuel1 → length s ≤ fuel2 →
    sub_go repl fuel1 s = sub_go repl fuel2 s.
Proof.
  induction fuel1 as [|fuel1 IH]; intros fuel2 s H1 H2.
  - destruct s; [|simpl in H1; lia]. by destruct fuel2.
  - destruct fuel2 as [|fuel2].
    { destruct s; [done|simpl in H2; lia]. }
    simpl. destruct (match_here s) as [[[a p] r]|] eqn:Hm.
    + apply match_here_shorter in Hm. f_equal. apply IH; lia.
    + destruct s as [|c s]; [done|]. simpl in *. f_equal. apply IH; lia.
Qed.

Lemma sub_nil (repl : str → str → str) : sub repl [] = [].
Proof. done. Qed.

Lemma sub_match (repl : str → str → str) (s alt_text path rest : str) :
  match_here s = Some (alt_text, path, rest) →
  sub repl s = repl alt_text path ++ sub repl rest.
Proof.
  intros Hm. unfold sub. pose proof (match_here_shorter _ _ _ _ Hm) as Hlen.
  destruct (length s) as [|n] eqn:Hn; [lia|].
  simpl. rewrite Hm. f_equal. apply sub_go_fuel; lia.
Qed.

Lemma sub_skip (repl : str → str → str) (c : ascii) (s : str) :
  match_here (c :: s) = None → sub repl (c :: s) = c :: sub repl s.
Proof. intros Hm. unfold sub. cbn [length sub_go]. by rewrite Hm. Qed.


Lemma match_here_not_bang (c : ascii) (s : str) :
  c ≠ "!"%char → match_here (c :: s) = None.
Proof.
  intros Hne. destruct (match_here (c :: s)) as [[[a p] r]|] eqn:Hm; [|done].
  apply match_here_Some in Hm as (Heq & _). congruence.
Qed.

Lemma match_here_not_bracket (c0 c : ascii) (s : str) :
  c ≠ "["%char → match_here (c0 :: c :: s) = None.
Proof.
  intros Hne. destruct (match_here (c0 :: c :: s)) as [[[a p] r]|] eqn:Hm; [|done].
  apply match_here_Some in Hm as (Heq & _). congruence.
Qed.

Lemma match_path_not_paren (c : ascii) (s : str) :
  c ≠ "("%char → match_path (c :: s) = None.
Proof.
  intros Hne. destruct (match_path (c :: s)) as [[p r]|] eqn:Hm; [|done].
  apply match_path_Some in Hm as (Heq & _). congruence.
Qed.

Section Sub.
Context (repl : str → str → str).
Hypothesis repl_head : ∀ a p, ∃ t, repl a p = "!"%char :: t.

(** A text without closing bracket, or without closing parenthesis, holds
    no match. *)
Lemma sub_without (c : ascii) (s : str) :
  c = "]"%char ∨ c = ")"%char → c ∉ s → sub repl s = s.
Proof.
  intros Hc. induction s as [|a s IH]; intros Hs; [done|].
  apply not_elem_of_cons in Hs as Hs'. destruct Hs' as [Hne Hs'].
  rewrite sub_skip, IH; [done..|].
  destruct (match_here (a :: s)) as [[[al p] r]|] eqn:Hm; [|done].
  apply match_here_Some in Hm as (Heq & _). exfalso. apply Hs.
  rewrite Heq. destruct Hc as [-> | ->]; set_solver.
Qed.

(** The first character is never changed: a replacement starts with the
    exclamation mark of the match it replaces. *)
Lemma sub_head (c : ascii) (s : str) : ∃ t, sub repl (c :: s) = c :: t.
Proof.
  destruct (match_here (c :: s)) as [[[a p] r]|] eqn:Hm.
  - rewrite (sub_match _ _ _ _ _ Hm).
    apply match_here_Some in Hm as (Heq & _). injection Heq as -> _.
    destruct (repl_head a p) as [t ->]. eauto.
  - rewrite sub_skip by done. eauto.
Qed.

(** No match starts inside a bracket-free run whose closing bracket is not
    followed by a parenthesised group. *)
Lemma sub_alt_run (alt_text s3 : str) :
  "]"%char ∉ alt_text → match_path s3 = None →
  sub repl (alt_text ++ "]"%char :: s3) = alt_text ++ "]"%char :: sub repl s3.
Proof.
  intros Halt Hpath. induction alt_text as [|a alt_text IH]; simpl.
  { by rewrite sub_skip. }
  apply not_elem_of_cons in Halt as [Hne Halt].
  rewrite sub_skip, IH; [done..|].
  destruct (match_here (a :: alt_text ++ "]"%char :: s3))
    as [[[al p] r]|] eqn:Hm; [|done].
  apply match_here_Some in Hm as (Heq & Hal & Hp1 & Hp2).
  destruct alt_text as [|b alt_text]; [by injection Heq|].
  injection Heq as -> -> Heq.
  apply not_elem_of_cons in Halt as [_ Halt].
  assert (Hspan : span_not "]"%char (alt_text ++ "]"%char :: s3)
                  = (alt_text, "]"%char :: s3)) by by apply span_not_stop.
  rewrite Heq, span_not_stop in Hspan by done.
  injection Hspan as -> <-.
  assert (match_path ("("%char :: p ++ ")"%char :: r) = Some (p, r))
    by by apply match_path_Some.
  congruence.
Qed.

Lemma match_path_sub_None (s3 : str) :
  match_path s3 = None → match_path (sub repl s3) = None.
Proof.
  intros Hpath. destruct s3 as [|c s3]; [done|].
  destruct (decide (c = "("%char)) as [->|Hne].
  2:{ destruct (sub_head c s3) as [t ->]. by apply match_path_not_paren. }
  rewrite sub_skip by done.
  destruct (span_not ")"%char s3) as [p s4] eqn:Hspan.
  apply span_not_spec in Hspan as (-> & Hp & [-> | [r ->]]).
  - rewrite app_nil_r in *. by rewrite (sub_without ")"%char) by auto.
  - destruct p as [|a p].
    + rewrite app_nil_l, sub_skip by done. done.
    + assert (match_path ("("%char :: (a :: p) ++ ")"%char :: r)
              = Some (a :: p, r)) by by apply match_path_Some.
      congruence.
Qed.

(** Where no match starts, none starts after the text behind has been
    rewritten. *)
Lemma match_here_sub_None (c : ascii) (s : str) :
  match_here (c :: s) = None → match_here (c :: sub repl s) = None.
Proof.
  intros Hm. destruct (decide (c = "!"%char)) as [->|Hne];
    [|by apply match_here_not_bang].
  destruct s as [|c1 s1]; [done|].
  destruct (decide (c1 = "["%char)) as [->|Hne].
  2:{ destruct (sub_head c1 s1) as [t ->]. by apply match_here_not_bracket. }
  rewrite sub_skip by done.
  destruct (span_not "]"%char s1) as [a s2] eqn:Hspan.
  apply span_not_spec in Hspan as (-> & Ha & [-> | [s3 ->]]).
  - rewrite app_nil_r in *. by rewrite (sub_without "]"%char) by auto.
  - assert (Hpath : match_path s3 = None).
    { rewrite match_here_unfold, span_not_stop in Hm by done.
      by destruct (match_path s3) as [[p r]|]. }
    rewrite sub_alt_run by done.
    rewrite match_here_unfold, span_not_stop by done.
    by rewrite match_path_sub_None.
Qed.

End Sub.
End ImagePatternFacts.
(** ** [os.path.basename] *)

Lemma existsb_eq_false (c : ascii) (s : str) :
  existsb (λ b, bool_decide (b = c)) s = false ↔ c ∉ s.
Proof.
  induction s as [|a s IH]; simpl.
  { split; [intros _; apply not_elem_of_nil|done]. }
  rewrite orb_false_iff, IH, not_elem_of_cons, bool_decide_eq_false.
  naive_solver.
Qed.

Lemma after_last_not_elem (c : ascii) (s : str) : c ∉ OsPath.after_last c s.
Proof.
  induction s as [|a s IH]; simpl; [apply not_elem_of_nil|].
  destruct (existsb _ s) eqn:Hex; [done|].
  apply existsb_eq_false in Hex.
  destruct (decide (a = c)); [done|]. rewrite not_elem_of_cons. auto.
Qed.

Lemma after_last_suffix (c : ascii) (s : str) : OsPath.after_last c s `suffix_of` s.
Proof.
  induction s as [|a s IH]; simpl; [done|].
  destruct (existsb _ s); [by apply suffix_cons_r|].
  destruct (decide (a = c)); [by apply suffix_cons_r|done].
Qed.

Lemma after_last_app (c : ascii) (pre name : str) :
  c ∉ name → OsPath.after_last c (pre ++ c :: name) = name.
Proof.
  intros Hname. induction pre as [|a pre IH]; simpl.
  - apply existsb_eq_false in Hname as ->. by rewrite decide_True.
  - destruct (existsb _ (pre ++ c :: name)) eqn:Hex; [done|].
    apply existsb_eq_false in Hex. set_solver.
Qed.

Lemma after_last_id (c : ascii) (s : str) : c ∉ s → OsPath.after_last c s = s.
Proof.
  destruct s as [|a s]; simpl; [done|]. intros [Ha Hs]%not_elem_of_cons.
  apply existsb_eq_false in Hs as ->. by rewrite decide_False.
Qed.

Lemma basename_no_sep (p : str) : OsPath.sep ∉ OsPath.basename p.
Proof. apply after_last_not_elem. Qed.

Lemma basename_not_elem (c : ascii) (p : str) : c ∉ p → c ∉ OsPath.basename p.
Proof.
  intros Hp Hb. apply Hp.
  destruct (after_last_suffix OsPath.sep p) as [pre Heq].
  rewrite Heq. apply elem_of_app. by right.
Qed.

Lemma basename_images (name : str) :
  OsPath.sep ∉ name → OsPath.basename (py "/images/" ++ name) = name.
Proof. intros Hname. by apply (after_last_app OsPath.sep (py "/images")). Qed.

(** A file name of a walk, joined to the output directory and cut back to
    its basename, is the file name. *)
Lemma basename_join (dir file : str) :
  OsPath.sep ∉ file → OsPath.basename (OsPath.join dir file) = file.
Proof.
  intros Hfile. unfold OsPath.join.
  destruct (PyStr.startswith file [OsPath.sep]) eqn:Hs.
  { apply startswith_spec in Hs as [t ->]. set_solver. }
  destruct (last dir) as [c|] eqn:Hlast.
  - destruct (decide (c = OsPath.sep)) as [->|Hne].
    + apply last_Some in Hlast as [pre ->]. rewrite <-app_assoc.
      by apply after_last_app.
    + by apply after_last_app.
  - by apply after_last_id.
Qed.
(** ** [update_image_references] of [blog_generator.py] *)

Section Rewriter.
Import ImagePattern.
Context (copied_images : gmap str str).

Lemma replace_image_embed (alt_text image_path : str) :
  BlogGenerator.replace_image copied_images alt_text image_path
  = embed alt_text (py "/images/")
      (default (OsPath.basename image_path)
         (copied_images !! OsPath.basename image_path)).
Proof.
  unfold BlogGenerator.replace_image.
  by destruct (copied_images !! OsPath.basename image_path).
Qed.

Lemma replace_image_head (a p : str) :
  ∃ t, BlogGenerator.replace_image copied_images a p = "!"%char :: t.
Proof. rewrite replace_image_embed, embed_cons. eauto. Qed.

(** An image embed is replaced by the embed of the same alt text and of
    the mapped name, or else the basename, under [/images/]; the text
    after it is rewritten in turn. *)
Lemma update_image_references_embed (alt_text image_path rest : str) :
  "]"%char ∉ alt_text → image_path ≠ [] → ")"%char ∉ image_path →
  BlogGenerator.update_image_references
    (embed alt_text [] image_path ++ rest) copied_images
  = embed alt_text (py "/images/")
      (default (OsPath.basename image_path)
         (copied_images !! OsPath.basename image_path))
    ++ BlogGenerator.update_image_references rest copied_images.
Proof.
  intros Halt Hne Hpath. unfold BlogGenerator.update_image_references.
  rewrite (sub_match _ _ alt_text image_path rest), replace_image_embed; [done|].
  apply match_here_Some. split_and!; [|done..]. apply embed_app.
Qed.

(** A character at which no embed starts is copied. *)
Lemma update_image_references_other (c : ascii) (s : str) :
  match_here (c :: s) = None →
  BlogGenerator.update_image_references (c :: s) copied_images
  = c :: BlogGenerator.update_image_references s copied_images.
Proof. apply sub_skip. Qed.

(** A text without exclamation mark is returned as it is. *)
Lemma update_image_references_plain (s : str) :
  "!"%char ∉ s → BlogGenerator.update_image_references s copied_images = s.
Proof.
  induction s as [|c s IH]; [done|]. intros [Hc Hs]%not_elem_of_cons.
  rewrite update_image_references_other, IH; [done..|].
  by apply match_here_not_bang.
Qed.

(** The rename maps of the idempotence claim. *)
Hypothesis values_plain : ∀ k v,
  copied_images !! k = Some v → (OsPath.sep ∉ v) ∧ (")"%char ∉ v).
Hypothesis values_fixed : ∀ k v v',
  copied_images !! k = Some v → copied_images !! v = Some v' → v' = v.

Lemma update_image_references_idem_aux (n : nat) :
  ∀ s, length s ≤ n →
    BlogGenerator.update_image_references
      (BlogGenerator.update_image_references s copied_images) copied_images
    = BlogGenerator.update_image_references s copied_images.
Proof.
  unfold BlogGenerator.update_image_references.
  induction n as [|n IH]; intros s Hlen.
  { by destruct s; [|simpl in Hlen; lia]. }
  destruct (match_here s) as [[[a p] r]|] eqn:Hm.
  - pose proof (match_here_shorter _ _ _ _ Hm) as Hr.
    rewrite (sub_match _ _ _ _ _ Hm), replace_image_embed.
    apply match_here_Some in Hm as (-> & Ha & Hp1 & Hp2).
    set (b := OsPath.basename p).
    set (name := default b (copied_images !! b)).
    assert (Hname : (OsPath.sep ∉ name) ∧ (")"%char ∉ name)).
    { unfold name. destruct (copied_images !! b) as [v|] eqn:Hv; simpl.
      - by eapply values_plain.
      - split; [apply basename_no_sep|by apply basename_not_elem]. }
    destruct Hname as [Hsep Hparen].
    assert (Hfix : default name (copied_images !! name) = name).
    { unfold name. destruct (copied_images !! b) as [v|] eqn:Hv; simpl.
      - destruct (copied_images !! v) as [v'|] eqn:Hv'; simpl; [|done].
        by eapply values_fixed.
      - by rewrite Hv. }
    rewrite (sub_match _ _ a (py "/images/" ++ name)
               (sub (BlogGenerator.replace_image copied_images) r)).
    + rewrite replace_image_embed, basename_images, Hfix by done.
      f_equal. apply IH. lia.
    + apply match_here_Some. split_and!; [|done|done|].
      * apply embed_app.
      * rewrite elem_of_app. intros [Hin|Hin]; [|done].
        revert Hin. apply (bool_decide_unpack _). vm_compute. exact I.
  - destruct s as [|c s]; [done|]. simpl in Hlen.
    rewrite sub_skip by done.
    rewrite sub_skip
      by (apply match_here_sub_None; [apply replace_image_head|done]).
    f_equal. apply IH. lia.
Qed.

End Rewriter.

(** C10. For a rename map whose keys and values are plain names, without
    directory separator, closing bracket or closing parenthesis, and in
    which a value that is also a key is bound to itself, rewriting a
    rewritten body changes nothing. *)
Theorem update_image_references_idempotent (copied_images : gmap str str)
    (body : str) :
  (∀ k v, copied_images !! k = Some v → plain_name k ∧ plain_name v) →
  (∀ k v v', copied_images !! k = Some v → copied_images !! v = Some v' →
     v' = v) →
  BlogGenerator.update_image_references
    (BlogGenerator.update_image_references body copied_images) copied_images
  = BlogGenerator.update_image_references body copied_images.
Proof.
  intros Hplain Hfixed.
  apply (update_image_references_idem_aux copied_images) with (length body);
    [|done|done].
  intros k v Hkv. destruct (Hplain k v Hkv) as [_ (? & _ & ?)]. done.
Qed.

Lemma update_image_references_idempotent_witness :
  BlogGenerator.update_image_references
    (py "see ![pic](img/a.png) and ![x](b.gif)!")
    {[ py "a.png" := py "a_1.png" ]}
  = py "see ![pic](/images/a_1.png) and ![x](/images/b.gif)!" ∧
  BlogGenerator.update_image_references
    (BlogGenerator.update_image_references
       (py "see ![pic](img/a.png) and ![x](b.gif)!")
       {[ py "a.png" := py "a_1.png" ]})
    {[ py "a.png" := py "a_1.png" ]}
  = BlogGenerator.update_image_references
      (py "see ![pic](img/a.png) and ![x](b.gif)!")
      {[ py "a.png" := py "a_1.png" ]}.
Proof.
  split; [vm_compute; reflexivity|].
  apply update_image_references_idempotent.
  - intros k v [<- <-]%lookup_singleton_Some.
    repeat split; apply (bool_decide_unpack _); vm_compute; exact I.
  - intros k v v' [<- <-]%lookup_singleton_Some Hv.
    apply lookup_singleton_Some in Hv as [Heq _]. discriminate Heq.
Defined.

(** ** [update_image_references] of [blog_generator/md_to_html.py] *)

(** C5. In [md_to_html.py] an image whose basename is a key of the map is
    put under [../images/] and one whose basename is not under
    [/images/]: the two cases do not share one prefix, where the
    function's docstring and [blog_generator.py] have [/images/] for
    both. *)
Theorem update_image_references_two_prefixes :
  let copied_images : gmap str str := {[ py "known.png" := py "known.png" ]} in
  let body := py "![a](pics/known.png) and ![b](pics/other.png)" in
  MdToHtml.update_image_references body copied_images
    = py "![a](../images/known.png) and ![b](/images/other.png)" ∧
  BlogGenerator.update_image_references body copied_images
    = py "![a](/images/known.png) and ![b](/images/other.png)".
Proof. split; vm_compute; reflexivity. Qed.

(** The rewriter of [md_to_html.py] is not idempotent either: a renamed
    image moves from [../images/] to [/images/] on a second pass. *)
Example md_to_html_rewrite_twice :
  let copied_images : gmap str str := {[ py "a.png" := py "a_1.png" ]} in
  let once := MdToHtml.update_image_references (py "![x](a.png)") copied_images in
  once = py "![x](../images/a_1.png)" ∧
  MdToHtml.update_image_references once copied_images
    = py "![x](/images/a_1.png)".
Proof. split; vm_compute; reflexivity. Qed.
(** ** [extract_metadata] *)

Section ExtractMetadataFacts.
Context `{Libraries}.

Lemma extract_metadata_no_delimiter (md_content : str) :
  PyStr.startswith md_content delimiter = false →
  extract_metadata md_content = Ok default_metadata.
Proof. intros Hs. unfold extract_metadata. by rewrite Hs. Qed.

Lemma get_not_dict (metadata : value) (key : str) (dflt : value) :
  (∀ entries, metadata ≠ VDict entries) →
  get metadata key dflt = Raise AttributeError.
Proof. intros Hm. destruct metadata; try done. by destruct (Hm entries). Qed.


End ExtractMetadataFacts.


(** ** Runs *)

Lemma io_bind_Ok {A B} (act : io A) (k : A → io B) (s s' : site) (a : A) :
  act s = (Ok a, s') → (act ≫= k) s = k a s'.
Proof. intros Hact. unfold mbind, io_bind. by rewrite Hact. Qed.

Lemma io_bind_Raise {A B} (act : io A) (k : A → io B) (s s' : site) (e : exn) :
  act s = (Raise e, s') → (act ≫= k) s = (Raise e, s').
Proof. intros Hact. unfold mbind, io_bind. by rewrite Hact. Qed.

(** ** [copy_assets] in a run *)

Lemma elem_of_image_sources (walk : list (str * list str)) (p : str) :
  p ∈ image_sources walk ↔
  ∃ root files file,
    (root, files) ∈ walk ∧ file ∈ files ∧ is_image file = true ∧
    p = OsPath.join root file.
Proof.
  unfold image_sources. rewrite list_elem_of_bind. split.
  - intros ([root files] & Hin & Hwalk).
    apply list_elem_of_bind in Hin as (file & Hp & Hfile).
    destruct (is_image file) eqn:Himg; [|by apply elem_of_nil in Hp].
    apply list_elem_of_singleton in Hp. by exists root, files, file.
  - intros (root & files & file & Hwalk & Hfile & Himg & ->).
    exists (root, files). split; [|done].
    apply list_elem_of_bind. exists file. split; [|done].
    rewrite Himg. by apply list_elem_of_singleton.
Qed.

(** Copying writes no file of the site, and raises nothing but the error
    of [shutil.copy2]. *)
Lemma copy_file_io_files (w : world) (root file : str)
    (copied_images : gmap str str) (s : site) :
  ∃ r s', copy_file_io w root file copied_images s = (r, s') ∧
    files s' = files s ∧ ∀ e, r = Raise e → e = OSError.
Proof.
  unfold copy_file_io. destruct (is_image file); [|by do 2 eexists].
  destruct (free_name _ _ _ _ _); [|by do 2 eexists].
  destruct (copy_ok w _); do 2 eexists; (split_and!; [done|done|]);
    [done|by intros e [= <-]].
Qed.

Lemma copy_files_io_files (w : world) (root : str) (files0 : list str) :
  ∀ (copied_images : gmap str str) (s : site),
    ∃ r s', copy_files_io w root files0 copied_images s = (r, s') ∧
      files s' = files s ∧ ∀ e, r = Raise e → e = OSError.
Proof.
  induction files0 as [|file files0 IH]; intros copied_images s;
    cbn [copy_files_io].
  { by do 2 eexists. }
  destruct (copy_file_io_files w root file copied_images s)
    as ([m|e] & s1 & Hfile & Hs1 & He).
  - rewrite (io_bind_Ok _ _ _ _ _ Hfile).
    destruct (IH m s1) as (r & s' & -> & Hs' & Hr).
    exists r, s'. split_and!; [done|congruence|done].
  - rewrite (io_bind_Raise _ _ _ _ _ Hfile). by exists (Raise e), s1.
Qed.

Lemma copy_walk_io_files (w : world) (walk0 : list (str * list str)) :
  ∀ (copied_images : gmap str str) (s : site),
    ∃ r s', copy_walk_io w walk0 copied_images s = (r, s') ∧
      files s' = files s ∧ ∀ e, r = Raise e → e = OSError.
Proof.
  induction walk0 as [|[root files0] walk0 IH]; intros copied_images s;
    cbn [copy_walk_io].
  { by do 2 eexists. }
  destruct (copy_files_io_files w root files0 copied_images s)
    as ([m|e] & s1 & Hfiles & Hs1 & He).
  - rewrite (io_bind_Ok _ _ _ _ _ Hfiles).
    destruct (IH m s1) as (r & s' & -> & Hs' & Hr).
    exists r, s'. split_and!; [done|congruence|done].
  - rewrite (io_bind_Raise _ _ _ _ _ Hfiles). by exists (Raise e), s1.
Qed.

(** When every image can be copied the step does what [copy_assets]
    describes, on the images directory of the site. *)
Lemma copy_file_io_copied (w : world) (root file : str) (st st' : assets)
    (s : site) :
  images s = images_dir st →
  (is_image file = true → copy_ok w (OsPath.join root file) = true) →
  copy_file root file st = Some st' →
  copy_file_io w root file (copied_images st) s
  = (Ok (copied_images st'),
     {| images := images_dir st'; files := files s |}).
Proof.
  intros Himages Hok. unfold copy_file, copy_file_io. rewrite Himages.
  destruct (is_image file).
  - destruct (free_name _ _ _ _ _) as [dst|]; [|done].
    cbn [mbind option_bind]. intros [= <-]. by rewrite Hok.
  - intros [= <-]. rewrite <-Himages. by destruct s.
Qed.

Lemma copy_files_io_copied (w : world) (root : str) (files0 : list str) :
  ∀ (st st' : assets) (s : site),
    images s = images_dir st →
    (∀ file, file ∈ files0 → is_image file = true →
       copy_ok w (OsPath.join root file) = true) →
    copy_files root files0 st = Some st' →
    copy_files_io w root files0 (copied_images st) s
    = (Ok (copied_images st'),
       {| images := images_dir st'; files := files s |}).
Proof.
  induction files0 as [|file files0 IH]; intros st st' s Himages Hok;
    cbn [copy_files copy_files_io].
  { intros [= <-]. rewrite <-Himages. by destruct s. }
  destruct (copy_file root file st) as [st1|] eqn:Hfile; [|done].
  cbn [mbind option_bind]. intros Hrest.
  rewrite (io_bind_Ok _ _ _ _ _
             (copy_file_io_copied w root file st st1 s Himages
                (Hok file ltac:(by left)) Hfile)).
  apply (IH st1 st' {| images := images_dir st1; files := files s |});
    [done| |done].
  intros file' Hin. apply Hok. by right.
Qed.

Lemma copy_walk_io_copied (w : world) (walk0 : list (str * list str)) :
  ∀ (st st' : assets) (s : site),
    images s = images_dir st →
    (∀ p, p ∈ image_sources walk0 → copy_ok w p = true) →
    copy_walk walk0 st = Some st' →
    copy_walk_io w walk0 (copied_images st) s
    = (Ok (copied_images st'),
       {| images := images_dir st'; files := files s |}).
Proof.
  induction walk0 as [|[root files0] walk0 IH]; intros st st' s Himages Hok;
    cbn [copy_walk copy_walk_io].
  { intros [= <-]. rewrite <-Himages. by destruct s. }
  destruct (copy_files root files0 st) as [st1|] eqn:Hfiles; [|done].
  cbn [mbind option_bind]. intros Hrest.
  erewrite io_bind_Ok.
  2:{ apply (copy_files_io_copied w root files0 st st1 s Himages); [|done].
      intros file Hin Himg. apply Hok, elem_of_image_sources.
      exists root, files0, file. split_and!; [by left|done..]. }
  apply (IH st1 st' {| images := images_dir st1; files := files s |});
    [done| |done].
  intros p Hp. apply Hok.
  apply elem_of_image_sources in Hp
    as (root' & files' & file & Hwalk & Hfile & Himg & ->).
  apply elem_of_image_sources. exists root', files', file.
  split_and!; [by right|done..].
Qed.

Lemma copy_assets_io_copied (w : world) (s : site) :
  (∀ p, p ∈ image_sources (walk w) → copy_ok w p = true) →
  ∃ st, copy_assets (walk w) (images s) = Some st ∧
    copy_assets_io w s
    = (Ok (copied_images st),
       {| images := images_dir st; files := files s |}).
Proof.
  intros Hok. destruct (copy_assets_inv (walk w) (images s)) as (st & Hrun & _).
  exists st. split; [done|].
  by apply (copy_walk_io_copied w (walk w)
              {| images_dir := images s; copied_images := ∅; printed := [] |}).
Qed.

(** An image that cannot be copied ends the step with the error of
    [shutil.copy2]. *)
Lemma copy_files_io_raise (w : world) (root : str) (files0 : list str) :
  ∀ (copied_images : gmap str str) (s : site) (file : str),
    file ∈ files0 → is_image file = true →
    copy_ok w (OsPath.join root file) = false →
    ∃ s', copy_files_io w root files0 copied_images s = (Raise OSError, s') ∧
      files s' = files s.
Proof.
  induction files0 as [|f files0 IH]; intros copied_images s file Hin Himg Hbad.
  { by apply elem_of_nil in Hin. }
  cbn [copy_files_io].
  destruct (copy_file_io_files w root f copied_images s)
    as ([m|e] & s1 & Hfile & Hs1 & He).
  - rewrite (io_bind_Ok _ _ _ _ _ Hfile).
    apply elem_of_cons in Hin as [->|Hin].
    + exfalso. revert Hfile. unfold copy_file_io. rewrite Himg, Hbad.
      by destruct (free_name_spec f (images s)) as (dst & -> & _).
    + destruct (IH m s1 file Hin Himg Hbad) as (s' & -> & Hs').
      exists s'. split; [done|congruence].
  - rewrite (io_bind_Raise _ _ _ _ _ Hfile). rewrite (He e eq_refl).
    by exists s1.
Qed.

Lemma copy_walk_io_raise (w : world) (walk0 : list (str * list str)) :
  ∀ (copied_images : gmap str str) (s : site) (p : str),
    p ∈ image_sources walk0 → copy_ok w p = false →
    ∃ s', copy_walk_io w walk0 copied_images s = (Raise OSError, s') ∧
      files s' = files s.
Proof.
  induction walk0 as [|[root files0] walk0 IH]; intros copied_images s p Hin Hbad.
  { apply elem_of_image_sources in Hin as (? & ? & ? & Hwalk & _).
    by apply elem_of_nil in Hwalk. }
  cbn [copy_walk_io].
  destruct (copy_files_io_files w root files0 copied_images s)
    as ([m|e] & s1 & Hfiles & Hs1 & He).
  - rewrite (io_bind_Ok _ _ _ _ _ Hfiles).
    apply elem_of_image_sources in Hin
      as (root' & files' & file & Hwalk & Hfile & Himg & ->).
    apply elem_of_cons in Hwalk as [[= -> ->]|Hwalk].
    + exfalso.
      destruct (copy_files_io_raise w root files0 copied_images s file
                  Hfile Himg Hbad) as (s' & Hraise & _).
      congruence.
    + destruct (IH m s1 (OsPath.join root' file)) as (s' & -> & Hs');
        [|done|].
      { apply elem_of_image_sources. by exists root', files', file. }
      exists s'. split; [done|congruence].
  - rewrite (io_bind_Raise _ _ _ _ _ Hfiles). rewrite (He e eq_refl).
    by exists s1.
Qed.

Section BlogGeneratorRun.
Context `{Libraries}.
Import BlogGenerator.

Lemma extract_metadata_Ok (md_content : str) :
  ∃ title date status author tags,
    extract_metadata md_content = Ok (title, date, status, author, tags).
Proof.
  unfold extract_metadata.
  destruct (negb _); [unfold default_metadata; eauto 10|].
  destruct (try_except _ _) as [[[[title date] status] author] tags]. eauto 10.
Qed.


Lemma process_file_ok (w : world) (copied_images : gmap str str)
    (md_file : str) (lists : list blog_info * list blog_info) (s : site) :
  is_Some (read_file w FirstPass md_file) →
  ∃ lists' page html,
    process_file w copied_images md_file lists s
    = (Ok lists',
       {| images := images s; files := files s ++ [(page, html)] |}) ∧
    page ≠ py "index.html".
Proof.
  intros [md_content Hread]. destruct lists as [published_blogs all_blogs].
  destruct (extract_metadata_Ok md_content)
    as (title & date & status & author & tags & Hmeta).
  unfold process_file.
  erewrite io_bind_Ok by (unfold open_read, lift; by rewrite Hread).
  erewrite io_bind_Ok by (unfold lift; by rewrite Hmeta).
  cbn [path]. do 3 eexists. split; [reflexivity|].
  by destruct (eq_str status (py "published")).
Qed.

Lemma no_index_write (s : site) (page html : str) :
  no_index s → page ≠ py "index.html" →
  no_index {| images := images s; files := files s ++ [(page, html)] |}.
Proof.
  unfold no_index. simpl. rewrite fmap_app, not_elem_of_app. simpl.
  intros Hs Hpage. split; [done|]. rewrite list_elem_of_singleton. congruence.
Qed.


(** Every document is read: the loop ends, and has written pages only. *)
Lemma process_files_ok (w : world) (copied_images : gmap str str)
    (md_files : list str) :
  ∀ (lists : list blog_info * list blog_info) (s : site),
    (∀ md_file, md_file ∈ md_files → is_Some (read_file w FirstPass md_file)) →
    no_index s →
    ∃ lists' s', process_files w copied_images md_files lists s = (Ok lists', s') ∧
      no_index s'.
Proof.
  induction md_files as [|f md_files IH]; intros lists s Hread Hs.
  { by exists lists, s. }
  simpl.
  destruct (process_file_ok w copied_images f lists s)
    as (lists' & page & html & Hrun & Hpage); [apply Hread; by left|].
  rewrite (io_bind_Ok _ _ _ _ _ Hrun).
  apply IH; [|by apply no_index_write].
  intros md_file Hin. apply Hread. by right.
Qed.

(** The excerpt of a card never raises, and leaves the site as it is. *)
Lemma excerpt_of_spec (w : world) (blog : blog_info) (s : site) :
  excerpt_of w blog s
  = (Ok match read_file w HomePage (md_file blog) with
        | Some md_content => excerpt_of_content (content_only md_content)
        | None => py "No preview available..."
        end, s).
Proof.
  unfold excerpt_of, try_catch, mbind, io_bind, open_read, lift.
  by destruct (read_file w HomePage (md_file blog)).
Qed.

Lemma articles_html_of_total (w : world) (blogs : list blog_info) :
  ∀ (articles_html : str) (s : site),
    ∃ html, articles_html_of w blogs articles_html s = (Ok html, s).
Proof.
  induction blogs as [|blog blogs IH]; intros articles_html s; simpl.
  { by eexists. }
  rewrite (io_bind_Ok _ _ _ _ _ (excerpt_of_spec w blog s)). apply IH.
Qed.

(** The home page is written, unless the template expansion of [re.sub]
    raises. *)
Lemma generate_home_page_spec (w : world) (published_blogs : list blog_info)
    (s : site) :
  ∃ r s', generate_home_page w published_blogs s = (r, s') ∧
    match r with
    | Ok _ => py "index.html" ∈ (files s').*1
    | Raise e => ∃ repl template, re_sub_grid repl template = Raise e
    end.
Proof.
  unfold generate_home_page.
  destruct (articles_html_of_total w (take 10 published_blogs) [] s)
    as [html Hhtml].
  rewrite (io_bind_Ok _ _ _ _ _ Hhtml). cbv zeta.
  set (template_content := match template_file w home_template_name with
                           | Some content => content
                           | None => fallback_template
                           end).
  destruct (re_sub_grid (grid_replacement html) template_content)
    as [home|e] eqn:Hsub.
  - erewrite io_bind_Ok by reflexivity.
    do 2 eexists. split; [reflexivity|]. simpl.
    rewrite fmap_app, elem_of_app. right. by left.
  - erewrite io_bind_Raise by reflexivity.
    do 2 eexists. split; [reflexivity|].
    by exists (grid_replacement html), template_content.
Qed.


End BlogGeneratorRun.

(** ** Missing templates *)

Section BlogGeneratorTemplates.
Context `{Libraries}.
Import BlogGenerator.

(** Only [generate_home_page] looks at a template file, and only at the
    one of the home page. *)
Lemma articles_html_of_with_template (w : world) (name content : str)
    (blogs : list blog_info) :
  ∀ articles_html s,
    articles_html_of (with_template w name content) blogs articles_html s
    = articles_html_of w blogs articles_html s.
Proof.
  induction blogs as [|blog blogs IH]; intros articles_html s; simpl; [done|].
  unfold mbind, io_bind.
  change (excerpt_of (with_template w name content) blog s)
    with (excerpt_of w blog s).
  destruct (excerpt_of w blog s) as [[excerpt|e] s']; [apply IH|done].
Qed.

Lemma process_files_with_template (w : world) (name content : str)
    (copied_images : gmap str str) (md_files : list str) :
  ∀ lists s,
    process_files (with_template w name content) copied_images md_files lists s
    = process_files w copied_images md_files lists s.
Proof.
  induction md_files as [|f md_files IH]; intros lists s; simpl; [done|].
  unfold mbind, io_bind.
  change (process_file (with_template w name content) copied_images f lists s)
    with (process_file w copied_images f lists s).
  destruct (process_file w copied_images f lists s) as [[lists'|e] s'];
    [apply IH|done].
Qed.

Lemma generate_home_page_with_template (w : world) (name content : str)
    (published_blogs : list blog_info) (s : site) :
  template_file (with_template w name content) home_template_name
    = template_file w home_template_name
  ∨ (template_file w home_template_name = None ∧ name = home_template_name
     ∧ content = fallback_template) →
  generate_home_page (with_template w name content) published_blogs s
  = generate_home_page w published_blogs s.
Proof.
  intros Htemplate. unfold generate_home_page, mbind, io_bind.
  rewrite articles_html_of_with_template.
  destruct (articles_html_of w (take 10 published_blogs) [] s)
    as [[articles_html|e] s']; [|done].
  destruct Htemplate as [-> | (Hnone & -> & ->)]; [done|].
  rewrite Hnone. unfold with_template. cbn [template_file].
  by rewrite decide_True.
Qed.

Lemma copy_walk_io_with_template (w : world) (name content : str)
    (walk0 : list (str * list str)) :
  ∀ copied_images s,
    copy_walk_io (with_template w name content) walk0 copied_images s
    = copy_walk_io w walk0 copied_images s.
Proof.
  assert (Hfiles : ∀ root files0 copied_images s,
            copy_files_io (with_template w name content) root files0
              copied_images s
            = copy_files_io w root files0 copied_images s).
  { intros root files0. induction files0 as [|file files0 IH];
      intros copied_images s; cbn [copy_files_io]; [done|].
    unfold mbind, io_bind.
    change (copy_file_io (with_template w name content) root file
              copied_images s)
      with (copy_file_io w root file copied_images s).
    destruct (copy_file_io w root file copied_images s) as [[m|e] s'];
      [apply IH|done]. }
  induction walk0 as [|[root files0] walk0 IH]; intros copied_images s;
    cbn [copy_walk_io]; [done|].
  unfold mbind, io_bind. rewrite Hfiles.
  destruct (copy_files_io w root files0 copied_images s) as [[m|e] s'];
    [apply IH|done].
Qed.

Lemma generate_blog_site_with_template (w : world) (name content : str)
    (s : site) :
  template_file (with_template w name content) home_template_name
    = template_file w home_template_name
  ∨ (template_file w home_template_name = None ∧ name = home_template_name
     ∧ content = fallback_template) →
  generate_blog_site (with_template w name content) s = generate_blog_site w s.
Proof.
  intros Htemplate. unfold generate_blog_site. simpl.
  destruct (negb (blogs_dir_exists w)); [done|].
  unfold mbind, io_bind. simpl.
  unfold copy_assets_io. cbn [walk with_template].
  rewrite copy_walk_io_with_template.
  destruct (copy_walk_io w (walk w) ∅ empty_site) as [[copied_images|e] s1];
    [|done].
  rewrite process_files_with_template.
  destruct (process_files w copied_images _ _ s1)
    as [[[published_blogs all_blogs]|e] s2]; [|done].
  by apply generate_home_page_with_template.
Qed.

End BlogGeneratorTemplates.

Section MdToHtmlTemplates.
Context `{Libraries}.
Import MdToHtml.

Lemma md_excerpt_of_spec (w : world) (blog : blog_info) (s : site) :
  ∃ excerpt, excerpt_of w blog s = (Ok excerpt, s).
Proof.
  unfold excerpt_of, try_catch, mbind, io_bind, open_read, lift.
  destruct (read_file w HomePage (md_file blog)); by eexists.
Qed.

Lemma md_articles_html_of_total (w : world) (blogs : list blog_info) :
  ∀ (articles_html : str) (s : site),
    ∃ html, articles_html_of w blogs articles_html s = (Ok html, s).
Proof.
  induction blogs as [|blog blogs IH]; intros articles_html s; simpl.
  { by eexists. }
  destruct (md_excerpt_of_spec w blog s) as [excerpt Hexcerpt].
  rewrite (io_bind_Ok _ _ _ _ _ Hexcerpt). apply IH.
Qed.

(** Without the home template nothing is written and nothing is raised. *)
Lemma generate_home_page_no_template (w : world)
    (published_blogs : list blog_info) (repo_name : str) (s : site) :
  template_file w (py "blog_home.template") = None →
  generate_home_page w published_blogs repo_name s = (Ok (), s).
Proof.
  intros Hnone. unfold generate_home_page.
  destruct (md_articles_html_of_total w (take 10 published_blogs) [] s)
    as [html Hhtml].
  rewrite (io_bind_Ok _ _ _ _ _ Hhtml). by rewrite Hnone.
Qed.

(** The first pass writes nothing and makes one record per document. *)
Lemma collect_files_ok (w : world) (md_files : list str) :
  ∀ (lists : list blog_info * list blog_info) (s : site),
    (∀ f, f ∈ md_files → is_Some (read_file w FirstPass f)) →
    ∃ published_blogs all_blogs,
      collect_files w md_files lists s = (Ok (published_blogs, all_blogs), s) ∧
      md_file <$> all_blogs = (md_file <$> lists.2) ++ md_files.
Proof.
  induction md_files as [|f md_files IH]; intros [published_blogs all_blogs] s Hread.
  { exists published_blogs, all_blogs. by rewrite app_nil_r. }
  destruct (Hread f) as [md_content Hf]; [by left|].
  destruct (extract_metadata_Ok md_content)
    as (title & date & status & author & tags & Hmeta).
  simpl. unfold collect_file.
  erewrite (io_bind_Ok (open_read w FirstPass f ≫= _));
    [|erewrite io_bind_Ok by (unfold open_read, lift; by rewrite Hf);
      erewrite io_bind_Ok by (unfold lift; by rewrite Hmeta); reflexivity].
  edestruct IH as (published_blogs' & all_blogs' & -> & Hfiles).
  { intros f' Hin. apply Hread. by right. }
  do 2 eexists. split; [reflexivity|].
  rewrite Hfiles. simpl. by rewrite fmap_app, <-app_assoc.
Qed.

(** Without the page template the second pass stops at its first
    document, with [sys.exit(1)] and nothing written. *)
Lemma convert_blogs_no_template (w : world) (copied_images : gmap str str)
    (repo_name : str) (blog : blog_info) (all_blogs : list blog_info)
    (s : site) :
  template_file w (py "blog_post.template") = None →
  is_Some (read_file w SecondPass (md_file blog)) →
  convert_blogs w copied_images repo_name (blog :: all_blogs) s
  = (Raise (SystemExit 1), s).
Proof.
  intros Hnone [md_content Hread]. simpl.
  apply io_bind_Raise. unfold convert_blog.
  erewrite io_bind_Ok by (unfold open_read, lift; by rewrite Hread).
  cbv zeta. apply io_bind_Raise. unfold load_template, lift. by rewrite Hnone.
Qed.

End MdToHtmlTemplates.

Section MissingTemplates.
Context `{Libraries}.

(** C9 (amended). [blog_generator.py] reads no page template, and without
    its home template file it runs as if the file held the built-in
    fallback template.  In [md_to_html.py] a run that has a document to
    render and no page template, and whose images can be copied and
    documents read, ends with [sys.exit(1)] after the assets have been
    copied and before any page or the home page is written: the site it
    leaves holds the images of [copy_assets] and no file.  Without the
    home template [generate_home_page] returns without writing
    [index.html] and without raising. *)
Theorem missing_template_outcomes (w : world) (s : site) :
  (template_file w BlogGenerator.home_template_name = None →
   BlogGenerator.generate_blog_site w s
   = BlogGenerator.generate_blog_site
       (with_template w BlogGenerator.home_template_name
          BlogGenerator.fallback_template) s) ∧
  (∀ name content,
     name ≠ BlogGenerator.home_template_name →
     BlogGenerator.generate_blog_site (with_template w name content) s
     = BlogGenerator.generate_blog_site w s) ∧
  (∀ repo_url,
     template_file w (py "blog_post.template") = None →
     blogs_dir_exists w = true →
     (∀ p, p ∈ image_sources (walk w) → copy_ok w p = true) →
     find_md_files (walk w) ≠ [] →
     (∀ md_file,
        md_file ∈ find_md_files (walk w) →
        is_Some (read_file w FirstPass md_file) ∧
        is_Some (read_file w SecondPass md_file)) →
     ∃ st,
       copy_assets (walk w) ∅ = Some st ∧
       MdToHtml.generate_blog_site w repo_url s
       = (Raise (SystemExit 1),
          {| images := images_dir st; files := [] |})) ∧
  (∀ published_blogs repo_name,
     template_file w (py "blog_home.template") = None →
     MdToHtml.generate_home_page w published_blogs repo_name s = (Ok (), s)).
Proof.
  split_and!.
  - intros Hnone. symmetry. apply generate_blog_site_with_template. auto.
  - intros name content Hne. apply generate_blog_site_with_template. left.
    simpl. by rewrite decide_False.
  - intros repo_url Hnone Hexists Hok Hfiles Hread.
    destruct (copy_assets_io_copied w empty_site Hok) as (st & Hst & Hcopy).
    cbn [images files empty_site] in Hst, Hcopy.
    destruct (collect_files_ok w (find_md_files (walk w)) ([], [])
                {| images := images_dir st; files := [] |})
      as (published_blogs & all_blogs & Hcollect & Hall).
    { intros f Hf. by apply Hread. }
    simpl in Hall.
    exists st. split; [done|].
    unfold MdToHtml.generate_blog_site. rewrite Hexists. cbn [negb]. cbv zeta.
    erewrite io_bind_Ok by reflexivity.
    rewrite (io_bind_Ok _ _ _ _ _ Hcopy), (io_bind_Ok _ _ _ _ _ Hcollect).
    apply io_bind_Raise.
    pose proof (list_sort_Permutation sort_key datetime_lt true all_blogs)
      as Hperm.
    destruct (list_sort sort_key datetime_lt true all_blogs)
      as [|blog sorted] eqn:Hsorted.
    { apply Permutation_nil in Hperm. subst all_blogs. by destruct Hfiles. }
    apply convert_blogs_no_template; [done|].
    apply Hread. rewrite <-Hall. apply list_elem_of_fmap_2.
    rewrite <-Hperm. by left.
  - intros published_blogs repo_name.
    apply generate_home_page_no_template.
Qed.

End MissingTemplates.

(** No template file at all: [blog_generator.py] completes and writes a
    home page from its built-in template; with the page template only,
    [md_to_html.py] completes too, without home page. *)
Lemma missing_index_template_is_not_fatal :
  (∃ s index_html,
     @BlogGenerator.generate_blog_site Sample.libs
       (Sample.repository true Sample.no_template) empty_site = (Ok (), s) ∧
     files s !! 1 = Some (py "index.html", index_html) ∧
     Sample.contains (py "<h1>Neural Networks Hub</h1>") index_html = true) ∧
  (∃ s,
     @MdToHtml.generate_blog_site Sample.libs
       (Sample.repository true Sample.page_template_only)
       (py "https://github.com/u/site.git") empty_site = (Ok (), s) ∧
     files s = [(py "published/a.html", py "<h1>Hello</h1><p>Hello world.</p>")]).
Proof.
  split.
  - do 2 eexists. split_and!; vm_compute; reflexivity.
  - eexists. split; vm_compute; reflexivity.
Qed.

Lemma missing_template_outcomes_witness :
  ∃ st,
    copy_assets (walk (Sample.repository true Sample.no_template)) ∅
      = Some st ∧
    @MdToHtml.generate_blog_site Sample.libs
      (Sample.repository true Sample.no_template)
      (py "https://github.com/u/site.git") empty_site
    = (Raise (SystemExit 1), {| images := images_dir st; files := [] |}).
Proof.
  pose proof (@missing_template_outcomes Sample.libs
    (Sample.repository true Sample.no_template) empty_site)
    as (_ & _ & Hexit & _).
  apply Hexit; [reflexivity|reflexivity|by intros p _|by vm_compute|].
  intros md_file Hin. vm_compute in Hin.
  apply list_elem_of_singleton in Hin as ->. split; vm_compute; eauto.
Defined.

(** ** The corpus of a run *)

Section Corpus.
Context `{Libraries}.

Lemma published_of_snoc (all_blogs : list blog_info) (blog : blog_info) :
  published_of (all_blogs ++ [blog])
  = if eq_str (status blog) (py "published")
    then published_of all_blogs ++ [blog] else published_of all_blogs.
Proof.
  unfold published_of. rewrite filter_app, filter_cons, filter_nil.
  destruct (eq_str (status blog) (py "published")); simpl;
    by rewrite ?app_nil_r.
Qed.

Lemma process_file_published (w : world) (copied_images : gmap str str)
    (md_file : str) (published_blogs all_blogs : list blog_info)
    (lists' : list blog_info * list blog_info) (s s' : site) :
  BlogGenerator.process_file w copied_images md_file
    (published_blogs, all_blogs) s = (Ok lists', s') →
  published_blogs = published_of all_blogs →
  lists'.1 = published_of lists'.2.
Proof.
  unfold BlogGenerator.process_file, mbind, io_bind, open_read, lift.
  destruct (read_file w FirstPass md_file) as [md_content|]; [|done].
  destruct (extract_metadata md_content)
    as [[[[[title date] status] author] tags]|]; [|done].
  cbv zeta. unfold write_file. intros [= <- _] ->. cbn [fst snd].
  by rewrite published_of_snoc.
Qed.

(** The list sorted for the home page is the published ordering of the
    records of the run. *)
Lemma process_files_published (w : world) (copied_images : gmap str str)
    (md_files : list str) :
  ∀ (published_blogs all_blogs published_blogs' all_blogs' : list blog_info)
    (s s' : site),
    BlogGenerator.process_files w copied_images md_files
      (published_blogs, all_blogs) s = (Ok (published_blogs', all_blogs'), s') →
    published_blogs = published_of all_blogs →
    list_sort sort_key datetime_lt true published_blogs'
    = published_ordering all_blogs'.
Proof.
  induction md_files as [|f md_files IH];
    intros published_blogs all_blogs published_blogs' all_blogs' s s'.
  { simpl. unfold mret, io_ret. by intros [= <- <- _] ->. }
  cbn [BlogGenerator.process_files].
  destruct (BlogGenerator.process_file w copied_images f
              (published_blogs, all_blogs) s)
    as [[[published_blogs1 all_blogs1]|e] s1] eqn:Hfile.
  - rewrite (io_bind_Ok _ _ _ _ _ Hfile). intros Hrest Hpub.
    eapply IH; [exact Hrest|].
    by apply (process_file_published _ _ _ _ _ _ _ _ Hfile).
  - by rewrite (io_bind_Raise _ _ _ _ _ Hfile).
Qed.

End Corpus.

(** * Further properties of the pipeline *)


(** ** Leftmost occurrences *)

Lemma startswith_app (sep t : str) : PyStr.startswith (sep ++ t) sep = true.
Proof. apply startswith_spec. eauto. Qed.

Lemma removelast_snoc_last (sep : str) :
  sep ≠ [] → ∃ c, sep = removelast sep ++ [c].
Proof.
  intros Hne. destruct (last sep) as [c|] eqn:Hlast.
  - apply last_Some in Hlast as [l ->]. exists c.
    by rewrite removelast_last.
  - apply last_None in Hlast. done.
Qed.

(** The cut is at the first occurrence: when [sep] does not start inside
    [a], the text [a ++ sep ++ b] is cut into [a] and [b]. *)
Lemma cut_leftmost (sep a b : str) :
  sep ≠ [] → ¬ occurs sep (a ++ removelast sep) →
  PyStr.cut sep (a ++ sep ++ b) = Some (a, b).
Proof.
  intros Hne. induction a as [|c a IH]; intros Hocc.
  - rewrite cut_unfold. simpl. rewrite startswith_app.
    by rewrite drop_app_length.
  - rewrite cut_unfold.
    destruct (PyStr.startswith ((c :: a) ++ sep ++ b) sep) eqn:Hs.
    + exfalso. apply Hocc. apply startswith_spec in Hs as [t Ht].
      destruct (removelast_snoc_last sep Hne) as [d Hd].
      clear IH Hocc Hne. set (r := removelast sep) in *. clearbody r. subst sep.
      exists [], (drop (length (r ++ [d])) ((c :: a) ++ r)). simpl.
      rewrite <-(take_drop (length (r ++ [d])) (c :: a ++ r)) at 1.
      f_equal.
      assert (Htake : take (length (r ++ [d])) ((c :: a ++ r) ++ d :: b)
                      = r ++ [d]).
      { replace ((c :: a ++ r) ++ d :: b) with ((c :: a) ++ (r ++ [d]) ++ b)
          by (simpl; by rewrite <-!app_assoc).
        rewrite Ht. by rewrite take_app_length. }
      rewrite take_app_le in Htake; [done|].
      rewrite length_app. simpl. rewrite !length_app. simpl. lia.
    + simpl. rewrite IH; [done|].
      intros (a0 & b0 & Heq). apply Hocc. exists (c :: a0), b0.
      simpl. by rewrite Heq.
Qed.

(** A text in which [sep] does not occur is not cut. *)
Lemma cut_None_intro (sep s : str) : ¬ occurs sep s → PyStr.cut sep s = None.
Proof.
  intros Hocc. destruct (PyStr.cut sep s) as [[a b]|] eqn:Hcut; [|done].
  apply cut_Some in Hcut. destruct Hocc. by exists a, b.
Qed.

Lemma not_occurs_cut (sep s : str) : PyStr.cut sep s = None → ¬ occurs sep s.
Proof. intros Hcut (a & b & Heq). by eapply cut_None. Qed.

(** ** The header and the body of a document *)

Lemma split_frontmatter (fm body : str) :
  ¬ occurs delimiter (fm ++ py "--") →
  PyStr.split delimiter 2 (delimiter ++ fm ++ delimiter ++ body)
  = [[]; fm; body].
Proof.
  intros Hocc. unfold PyStr.split.
  rewrite cut_unfold, startswith_app, drop_app_length.
  by rewrite cut_leftmost.
Qed.

Section Frontmatter.
Context `{Libraries}.

(** X1. A text that starts with the delimiter, holds a header [fm] in which
    the delimiter does not start, the delimiter again and then any body is
    split into that header and that body, whatever delimiters the body
    holds: the body rendered is the body stripped, and the metadata are
    those of the text cut after the second delimiter. *)
Theorem frontmatter_and_body (fm body : str) :
  ¬ occurs delimiter (fm ++ py "--") →
  content_only (delimiter ++ fm ++ delimiter ++ body) = PyStr.strip body ∧
  extract_metadata (delimiter ++ fm ++ delimiter ++ body)
  = extract_metadata (delimiter ++ fm ++ delimiter).
Proof.
  intros Hocc. split.
  - unfold content_only. by rewrite split_frontmatter.
  - unfold extract_metadata, extract_metadata_try.
    rewrite !startswith_app.
    rewrite split_frontmatter by done.
    rewrite <-(app_nil_r (delimiter ++ fm ++ delimiter)), <-!app_assoc.
    by rewrite split_frontmatter.
Qed.

(** X2. When the header is a mapping, [extract_metadata] returns the
    values of [title], [status], [author] and [tags], each replaced by its
    default only when the key is missing (a key bound to null gives null),
    and the date that [strptime] reads from the [date] entry when that
    entry is there and true; any other key of the header is ignored. *)
Theorem extract_metadata_mapping (fm body : str)
    (entries : list (value * value)) :
  ¬ occurs delimiter (fm ++ py "--") →
  safe_load (PyStr.strip fm) = Ok (VDict entries) →
  extract_metadata (delimiter ++ fm ++ delimiter ++ body)
  = Ok (default (VStr (py "Untitled")) (dict_lookup entries (py "title")),
        match dict_lookup entries (py "date") with
        | Some date_str =>
            if truthy date_str then strptime (py_str date_str) else None
        | None => None
        end,
        default (VStr (py "draft")) (dict_lookup entries (py "status")),
        default (VStr []) (dict_lookup entries (py "author")),
        default (VList []) (dict_lookup entries (py "tags"))).
Proof.
  intros Hocc Hload. unfold extract_metadata, extract_metadata_try.
  rewrite startswith_app, split_frontmatter by done.
  cbn -[py dict_lookup PyStr.strip]. rewrite Hload.
  cbn -[py dict_lookup PyStr.strip]. unfold parse_date.
  by destruct (dict_lookup entries (py "date")).
Qed.

End Frontmatter.

Lemma frontmatter_and_body_witness :
  content_only (delimiter ++ py "
title: T
" ++ delimiter ++ py "
Body --- with --- rules
") = py "Body --- with --- rules".
Proof.
  destruct (@frontmatter_and_body Sample.libs (py "
title: T
") (py "
Body --- with --- rules
")) as [-> _]; [|reflexivity].
  apply not_occurs_cut. reflexivity.
Defined.

Lemma extract_metadata_mapping_witness :
  @extract_metadata Sample.libs (delimiter ++ py "
title: Hello
date: 2024-03-01
status: published
" ++ delimiter ++ py "
Hello world.")
  = Ok (VStr (py "Hello"), Some {| year := 2024; month := 3; day := 1 |},
        VStr (py "published"), VStr [], VList []).
Proof.
  rewrite (@extract_metadata_mapping Sample.libs _ _
    [(VStr (py "title"), VStr (py "Hello"));
     (VStr (py "date"), VDate 2024 3 1);
     (VStr (py "status"), VStr (py "published"))]).
  - reflexivity.
  - apply not_occurs_cut. reflexivity.
  - reflexivity.
Defined.

(** ** Documents and images *)

Lemma endswith_spec (s p : str) :
  PyStr.endswith s p = true ↔ ∃ t, s = t ++ p.
Proof.
  unfold PyStr.endswith. rewrite startswith_spec. split.
  - intros [t Ht]. exists (reverse t).
    by rewrite <-(reverse_involutive s), Ht, reverse_app, reverse_involutive.
  - intros [t ->]. exists (reverse t). by rewrite reverse_app.
Qed.

Lemma splitext_go_seen_None (s : str) :
  OsPath.splitext_go true s = None → OsPath.extsep ∉ s.
Proof.
  induction s as [|c s IH]; simpl; [intros _; apply not_elem_of_nil|].
  destruct (OsPath.splitext_go true s) as [[name ext]|]; [done|].
  rewrite andb_true_r. destruct (bool_decide (c = OsPath.extsep)) eqn:Hc; [done|].
  intros _. apply bool_decide_eq_false in Hc. rewrite not_elem_of_cons. auto.
Qed.

(** An extension starts at the last dot of the name. *)
Lemma splitext_go_ext (seen : bool) (s name ext : str) :
  OsPath.splitext_go seen s = Some (name, ext) →
  ∃ e, ext = OsPath.extsep :: e ∧ OsPath.extsep ∉ e.
Proof.
  revert seen name ext. induction s as [|c s IH]; intros seen name ext; simpl.
  { done. }
  destruct (OsPath.splitext_go _ s) as [[name' ext']|] eqn:Hgo.
  - intros [= <- <-]. eauto.
  - destruct (bool_decide (c = OsPath.extsep)) eqn:Hc; [|done].
    destruct seen; [|done]. simpl. intros [= <- <-].
    apply bool_decide_eq_true in Hc as ->. exists s. split; [done|].
    by apply splitext_go_seen_None.
Qed.

Lemma splitext_ext (p : str) :
  (OsPath.splitext p).2 = []
  ∨ ∃ e, (OsPath.splitext p).2 = OsPath.extsep :: e ∧ OsPath.extsep ∉ e.
Proof.
  unfold OsPath.splitext.
  destruct (OsPath.splitext_go false p) as [[name ext]|] eqn:Hgo; simpl.
  - right. by eapply splitext_go_ext.
  - by left.
Qed.

(** The extension of a name that ends in [.md] is [.md], or empty when
    only dots precede it. *)
Lemma splitext_md (t : str) :
  (OsPath.splitext (t ++ py ".md")).2 = []
  ∨ (OsPath.splitext (t ++ py ".md")).2 = py ".md".
Proof.
  destruct (splitext_ext (t ++ py ".md")) as [?|(e & Hext & He)]; [by left|].
  right. rewrite Hext.
  pose proof (splitext_app (t ++ py ".md")) as Happ. rewrite Hext in Happ.
  change (py ".md") with (OsPath.extsep :: py "md") in *. f_equal.
  transitivity (OsPath.after_last OsPath.extsep
    ((OsPath.splitext (t ++ OsPath.extsep :: py "md")).1 ++ OsPath.extsep :: e)).
  { symmetry. by apply after_last_app. }
  rewrite Happ. apply after_last_app.
  apply (bool_decide_unpack _). vm_compute. exact I.
Qed.

(** X3. A file that [find_md_files] takes for a document is never copied
    as an image by [copy_assets]: a name that ends in [.md] has none of the
    image extensions. *)
Theorem md_file_is_not_image (file : str) :
  PyStr.endswith file (py ".md") = true → is_image file = false.
Proof.
  intros [t ->]%endswith_spec. unfold is_image.
  destruct (splitext_md t) as [-> | ->]; reflexivity.
Qed.

Lemma md_file_is_not_image_witness :
  is_image (py "notes.final.md") = false ∧ is_image (py "notes.PNG") = true.
Proof.
  split; [|reflexivity]. apply md_file_is_not_image. reflexivity.
Defined.

(** ** More on [copy_assets] *)

Lemma free_name_loop_least (file : str) (dir : gmap str str) (n : nat) :
  ∀ (counter : nat) (dst : str),
    free_name n dir file (suffixed file counter) (S counter) = Some dst →
    ∃ k, counter ≤ k ∧ dst = suffixed file k ∧ dir !! dst = None ∧
      ∀ j, counter ≤ j < k → is_Some (dir !! suffixed file j).
Proof.
  induction n as [|n IH]; intros counter dst; simpl.
  - destruct (dir !! suffixed file counter) eqn:Hl; [done|].
    intros [= <-]. exists counter. split_and!; [lia|done|done|lia].
  - destruct (dir !! suffixed file counter) eqn:Hl.
    + intros (k & Hk & -> & Hfree & Hocc)%IH.
      exists k. split_and!; [lia|done|done|].
      intros j Hj. destruct (decide (j = counter)) as [->|]; [eauto|].
      apply Hocc. lia.
    + intros [= <-]. exists counter. split_and!; [lia|done|done|lia].
Qed.

(** X4. An image file whose name is free in the output directory is copied
    under its own name; otherwise it is copied under the name with the
    least suffix [_k], [k] from 1 on, that is free.  In both cases the
    rename map binds the file's name to the name chosen, and the output
    directory gains that one entry. *)
Theorem copy_file_least_suffix (root file : str) (st : assets) :
  is_image file = true →
  ∃ dst,
    copy_file root file st
    = Some {| images_dir := <[dst := OsPath.join root file]> (images_dir st);
              copied_images := <[file := dst]> (copied_images st);
              printed := printed st ++ [(file, dst)] |} ∧
    images_dir st !! dst = None ∧
    match images_dir st !! file with
    | None => dst = file
    | Some _ =>
        ∃ k, 1 ≤ k ∧ dst = suffixed file k ∧
          ∀ j, 1 ≤ j < k → is_Some (images_dir st !! suffixed file j)
    end.
Proof.
  intros Himg. unfold copy_file. rewrite Himg.
  destruct (free_name_spec file (images_dir st)) as (dst & Hres & Hfree & _).
  exists dst. rewrite Hres. split_and!; [done|done|].
  simpl in Hres. destruct (images_dir st !! file) eqn:Hl.
  - apply free_name_loop_least in Hres as (k & Hk & -> & _ & Hocc). eauto.
  - by injection Hres.
Qed.

Lemma copy_file_least_suffix_witness :
  copy_file (py "blogs/x") (py "a.png")
    {| images_dir := {[ py "a.png" := py "blogs/a.png";
                        py "a_1.png" := py "blogs/y/a.png" ]};
       copied_images := {[ py "a.png" := py "a_1.png" ]};
       printed := [(py "a.png", py "a.png"); (py "a.png", py "a_1.png")] |}
  = Some
    {| images_dir := <[ py "a_2.png" := py "blogs/x/a.png" ]>
                       {[ py "a.png" := py "blogs/a.png";
                          py "a_1.png" := py "blogs/y/a.png" ]};
       copied_images := <[ py "a.png" := py "a_2.png" ]>
                          {[ py "a.png" := py "a_1.png" ]};
       printed := [(py "a.png", py "a.png"); (py "a.png", py "a_1.png");
                   (py "a.png", py "a_2.png")] |}.
Proof.
  destruct (copy_file_least_suffix (py "blogs/x") (py "a.png")
    {| images_dir := {[ py "a.png" := py "blogs/a.png";
                        py "a_1.png" := py "blogs/y/a.png" ]};
       copied_images := {[ py "a.png" := py "a_1.png" ]};
       printed := [(py "a.png", py "a.png"); (py "a.png", py "a_1.png")] |}
    eq_refl) as (dst & -> & Hfree & Hleast).
  cbn [images_dir] in Hfree, Hleast.
  rewrite lookup_insert_eq in Hleast.
  destruct Hleast as (k & Hk & -> & Hocc).
  destruct k as [|[|[|k]]]; [lia| | |].
  - vm_compute in Hfree. discriminate Hfree.
  - reflexivity.
  - destruct (Hocc 2) as [x Hx]; [lia|]. vm_compute in Hx. discriminate Hx.
Defined.

Lemma copy_file_sources (walk : list (str * list str)) (root file : str)
    (files : list str) (st st' : assets) :
  (root, files) ∈ walk → file ∈ files →
  sources_inv walk st → copy_file root file st = Some st' →
  sources_inv walk st'.
Proof.
  intros Hroot Hfile Hinv. unfold copy_file.
  destruct (is_image file); [|by intros [= <-]].
  destruct (free_name_spec file (images_dir st)) as (dst & -> & Hfree & _).
  simpl. intros [= <-] f n. simpl.
  rewrite elem_of_app, list_elem_of_singleton. intros [Hin|[= -> ->]].
  - destruct (Hinv f n Hin) as (r & fs & Hr & Hf & Hl).
    exists r, fs. split_and!; [done..|].
    rewrite lookup_insert_ne; [done|]. intros <-. congruence.
  - exists root, files. by rewrite lookup_insert_eq.
Qed.

Lemma copy_files_sources (walk : list (str * list str)) (root : str)
    (files : list str) :
  (root, files) ∈ walk →
  ∀ (rest : list str) (st st' : assets),
    rest ⊆ files → sources_inv walk st →
    copy_files root rest st = Some st' → sources_inv walk st'.
Proof.
  intros Hroot rest. induction rest as [|file rest IH]; intros st st' Hsub Hinv.
  { by intros [= <-]. }
  simpl. destruct (copy_file root file st) as [st1|] eqn:Hfile; [|done].
  simpl. apply IH; [set_solver|].
  eapply copy_file_sources; [exact Hroot| |exact Hinv|exact Hfile].
  set_solver.
Qed.

Lemma copy_walk_sources (walk : list (str * list str)) :
  ∀ (rest : list (str * list str)) (st st' : assets),
    rest ⊆ walk → sources_inv walk st →
    copy_walk rest st = Some st' → sources_inv walk st'.
Proof.
  intros rest. induction rest as [|[root files] rest IH];
    intros st st' Hsub Hinv.
  { by intros [= <-]. }
  simpl. destruct (copy_files root files st) as [st1|] eqn:Hfiles; [|done].
  simpl. apply IH; [set_solver|].
  eapply (copy_files_sources walk root files); [set_solver| |exact Hinv|exact Hfiles].
  done.
Qed.

Lemma copy_assets_sources (walk : list (str * list str))
    (dir0 : gmap str str) (st : assets) :
  copy_assets walk dir0 = Some st → sources_inv walk st.
Proof.
  intros Hrun. eapply (copy_walk_sources walk walk); [done| |exact Hrun].
  intros f n Hnil. by apply elem_of_nil in Hnil.
Qed.

(** X5. Whatever the output directory held, every value of the rename map
    that [copy_assets] returns is the name of a file of the output
    directory, and that file is the copy of a file of the tree whose name
    is the key: a rewritten reference never names a missing file or the
    copy of a file of another name. *)
Theorem copy_assets_map_sources (walk : list (str * list str))
    (dir0 : gmap str str) :
  ∃ st, copy_assets walk dir0 = Some st ∧
    ∀ key name, copied_images st !! key = Some name →
      ∃ root files,
        (root, files) ∈ walk ∧ key ∈ files ∧
        images_dir st !! name = Some (OsPath.join root key).
Proof.
  destruct (copy_assets_inv walk dir0) as (st & Hrun & Hinv).
  exists st. split; [done|]. intros key name Hkey.
  rewrite (inv_map _ _ _ Hinv), fmap_Some in Hkey.
  destruct Hkey as ([f n] & Hlast & ->). simpl.
  apply last_Some_elem_of, list_elem_of_filter in Hlast as [Hf Hin].
  simpl in Hf. subst f.
  by apply (copy_assets_sources walk dir0 st Hrun).
Qed.

Lemma copy_assets_map_sources_witness :
  ∃ st, copy_assets [(py "blogs", [py "a.png"; py "a.md"])] ∅ = Some st ∧
    ∃ root files,
      (root, files) ∈ [(py "blogs", [py "a.png"; py "a.md"])] ∧
      py "a.png" ∈ files ∧
      images_dir st !! py "a.png" = Some (OsPath.join root (py "a.png")).
Proof.
  destruct (copy_assets_map_sources [(py "blogs", [py "a.png"; py "a.md"])] ∅)
    as (st & Hst & Hmap).
  exists st. split; [exact Hst|]. apply Hmap.
  vm_compute in Hst. injection Hst as <-. vm_compute. reflexivity.
Defined.

Lemma copy_file_plain (seen : list str) (root file : str) (st : assets) :
  plain_inv seen st →
  NoDup (filter (λ f, is_image f = true) (seen ++ [file])) →
  ∃ st', copy_file root file st = Some st' ∧ plain_inv (seen ++ [file]) st'.
Proof.
  intros [Hprinted Hdom]. rewrite filter_app, filter_cons, filter_nil.
  unfold copy_file. destruct (is_image file) eqn:Himg; simpl.
  - intros [_ [Hnew _]]%NoDup_app.
    assert (Hfree : images_dir st !! file = None).
    { apply not_elem_of_dom. rewrite Hdom, elem_of_list_to_set.
      intros Hin. apply (Hnew file Hin). by left. }
    rewrite Hfree. simpl. eexists. split; [done|]. split; simpl.
    + by rewrite Hprinted, filter_app, filter_cons_True, fmap_app by done.
    + rewrite dom_insert_L, Hdom, filter_app, filter_cons_True by done.
      rewrite list_to_set_app_L. simpl. set_solver.
  - intros _. exists st. split; [done|]. unfold plain_inv.
    rewrite filter_app, filter_cons_False by by rewrite Himg.
    by rewrite filter_nil, app_nil_r.
Qed.

Lemma copy_files_plain (root : str) (files : list str) :
  ∀ (seen : list str) (st : assets),
    plain_inv seen st →
    NoDup (filter (λ f, is_image f = true) (seen ++ files)) →
    ∃ st', copy_files root files st = Some st' ∧ plain_inv (seen ++ files) st'.
Proof.
  induction files as [|file files IH]; intros seen st Hinv Hnodup; simpl.
  { exists st. by rewrite app_nil_r. }
  destruct (copy_file_plain seen root file st Hinv) as (st1 & -> & Hinv1).
  { rewrite cons_middle, app_assoc, filter_app in Hnodup.
    by apply NoDup_app in Hnodup as [? _]. }
  simpl. destruct (IH (seen ++ [file]) st1 Hinv1) as (st2 & -> & Hinv2).
  { by rewrite <-app_assoc. }
  exists st2. by rewrite <-app_assoc in Hinv2.
Qed.

Lemma copy_walk_plain (walk : list (str * list str)) :
  ∀ (seen : list str) (st : assets),
    plain_inv seen st →
    NoDup (filter (λ f, is_image f = true) (seen ++ walk_files walk)) →
    ∃ st', copy_walk walk st = Some st' ∧
      plain_inv (seen ++ walk_files walk) st'.
Proof.
  induction walk as [|[root files] walk IH]; intros seen st Hinv Hnodup; simpl.
  { exists st. by rewrite app_nil_r. }
  change (walk_files ((root, files) :: walk)) with (files ++ walk_files walk)
    in *.
  destruct (copy_files_plain root files seen st Hinv) as (st1 & -> & Hinv1).
  { rewrite app_assoc, filter_app in Hnodup.
    by apply NoDup_app in Hnodup as [? _]. }
  simpl. destruct (IH (seen ++ files) st1 Hinv1) as (st2 & -> & Hinv2).
  { by rewrite <-app_assoc. }
  exists st2. by rewrite <-app_assoc in Hinv2.
Qed.

(** X6. When no two image files of the tree have the same name and the
    output directory starts empty, nothing is renamed: every image is
    copied under its own name, the rename map binds every key to itself,
    and the output directory holds exactly the names of the images. *)
Theorem copy_assets_without_collisions (walk : list (str * list str)) :
  NoDup (filter (λ f, is_image f = true) (walk_files walk)) →
  ∃ st, copy_assets walk ∅ = Some st ∧
    printed st
    = (λ f, (f, f)) <$> filter (λ f, is_image f = true) (walk_files walk) ∧
    (∀ key name, copied_images st !! key = Some name → name = key) ∧
    dom (images_dir st)
    = list_to_set (filter (λ f, is_image f = true) (walk_files walk)).
Proof.
  intros Hnodup.
  destruct (copy_walk_plain walk []
    {| images_dir := ∅; copied_images := ∅; printed := [] |})
    as (st & Hrun & Hprinted & Hdom); [by split|done|].
  exists st. split_and!; [done..| |done].
  destruct (copy_assets_inv walk ∅) as (st' & Hrun' & Hinv).
  unfold copy_assets in Hrun'. rewrite Hrun in Hrun'. injection Hrun' as <-.
  intros key name. rewrite (inv_map _ _ _ Hinv), fmap_Some.
  intros ([f n] & Hlast & ->). simpl.
  apply last_Some_elem_of, list_elem_of_filter in Hlast as [Hf Hin].
  rewrite Hprinted in Hin. apply list_elem_of_fmap in Hin as (g & [= -> ->] & _).
  done.
Qed.

Lemma copy_assets_without_collisions_witness :
  ∃ st,
    copy_assets [(py "blogs", [py "a.png"; py "a.md"]);
                 (py "blogs/x", [py "b.gif"])] ∅ = Some st ∧
    printed st = [(py "a.png", py "a.png"); (py "b.gif", py "b.gif")].
Proof.
  destruct (copy_assets_without_collisions
    [(py "blogs", [py "a.png"; py "a.md"]); (py "blogs/x", [py "b.gif"])])
    as (st & Hrun & Hprinted & _).
  - apply (bool_decide_unpack _). vm_compute. exact I.
  - exists st. split; [exact Hrun|]. rewrite Hprinted. reflexivity.
Defined.

(** ** More on the rewriting of image references *)

Lemma sub_embed (repl : str → str → str) (alt_text image_path rest : str) :
  ("]"%char ∉ alt_text) → image_path ≠ [] → (")"%char ∉ image_path) →
  ImagePattern.sub repl (ImagePattern.embed alt_text [] image_path ++ rest)
  = repl alt_text image_path ++ ImagePattern.sub repl rest.
Proof.
  intros Halt Hne Hpath. apply sub_match, match_here_Some.
  split_and!; [|done..]. apply embed_app.
Qed.

Section RewriterBoth.
Import ImagePattern.
Context (copied_images : gmap str str).

Lemma md_replace_image_head (a p : str) :
  ∃ t, MdToHtml.replace_image copied_images a p = "!"%char :: t.
Proof.
  unfold MdToHtml.replace_image.
  destruct (copied_images !! OsPath.basename p); rewrite embed_cons; eauto.
Qed.

(** X7. In both generators an image embed, with an alt text without
    closing bracket and a non-empty path without closing parenthesis, is
    replaced by an embed of the same alt text and the text after it is
    rewritten in turn.  [blog_generator.py] puts the mapped name, or else
    the basename of the path, under [/images/]; [md_to_html.py] puts the
    mapped name under [../images/] and an unmapped basename under
    [/images/]. *)
Theorem image_embed_rewritten (alt_text image_path rest : str) :
  ("]"%char ∉ alt_text) → image_path ≠ [] → (")"%char ∉ image_path) →
  BlogGenerator.update_image_references
    (embed alt_text [] image_path ++ rest) copied_images
  = embed alt_text (py "/images/")
      (default (OsPath.basename image_path)
         (copied_images !! OsPath.basename image_path))
    ++ BlogGenerator.update_image_references rest copied_images ∧
  MdToHtml.update_image_references
    (embed alt_text [] image_path ++ rest) copied_images
  = match copied_images !! OsPath.basename image_path with
    | Some new_filename => embed alt_text (py "../images/") new_filename
    | None => embed alt_text (py "/images/") (OsPath.basename image_path)
    end
    ++ MdToHtml.update_image_references rest copied_images.
Proof.
  intros Halt Hne Hpath. split.
  - unfold BlogGenerator.update_image_references.
    by rewrite sub_embed, replace_image_embed.
  - unfold MdToHtml.update_image_references. by rewrite sub_embed.
Qed.

(** X8. A body that lacks one of the three characters every embed holds,
    the exclamation mark, the closing bracket or the closing parenthesis,
    is returned unchanged by both generators, whatever the rename map. *)
Theorem body_without_embed_unchanged (md_content : str) :
  ("!"%char ∉ md_content) ∨ ("]"%char ∉ md_content)
    ∨ (")"%char ∉ md_content) →
  BlogGenerator.update_image_references md_content copied_images = md_content ∧
  MdToHtml.update_image_references md_content copied_images = md_content.
Proof.
  assert (Hbang : ∀ repl s, "!"%char ∉ s → sub repl s = s).
  { intros repl s. induction s as [|c s IH]; [done|].
    intros [Hc Hs]%not_elem_of_cons.
    rewrite sub_skip, IH; [done..|]. by apply match_here_not_bang. }
  unfold BlogGenerator.update_image_references,
    MdToHtml.update_image_references.
  intros [H|[H|H]].
  - by rewrite !Hbang.
  - by rewrite (sub_without _ (replace_image_head copied_images) "]"%char),
      (sub_without _ md_replace_image_head "]"%char) by auto.
  - by rewrite (sub_without _ (replace_image_head copied_images) ")"%char),
      (sub_without _ md_replace_image_head ")"%char) by auto.
Qed.

End RewriterBoth.

Lemma image_embed_rewritten_witness :
  MdToHtml.update_image_references (py "![a b](x/p.png) and ![c](q.png)!")
    {[ py "p.png" := py "p_1.png" ]}
  = py "![a b](../images/p_1.png) and ![c](/images/q.png)!".
Proof.
  destruct (image_embed_rewritten {[ py "p.png" := py "p_1.png" ]}
    (py "a b") (py "x/p.png") (py " and ![c](q.png)!")) as [_ Hmd].
  - apply (bool_decide_unpack _). vm_compute. exact I.
  - done.
  - apply (bool_decide_unpack _). vm_compute. exact I.
  - etrans; [exact Hmd|]. vm_compute. reflexivity.
Defined.

Lemma body_without_embed_unchanged_witness :
  BlogGenerator.update_image_references (py "wow! [link](a.png) (x)") ∅
  = py "wow! [link](a.png) (x)" ∧
  BlogGenerator.update_image_references (py "no image (here), see [1]")
    {[ py "a.png" := py "a_1.png" ]}
  = py "no image (here), see [1]".
Proof.
  split; [vm_compute; reflexivity|].
  apply body_without_embed_unchanged. left.
  apply (bool_decide_unpack _). vm_compute. exact I.
Defined.

(** ** More on excerpts *)

Lemma strip_markers_length (s : str) : length (strip_markers s) ≤ length s.
Proof. rewrite strip_markers_filter. apply length_filter. Qed.

(** X9. An excerpt never has more than 153 characters, and never more
    characters than the body and the three dots; an empty body has an
    empty excerpt. *)
Theorem excerpt_length_bound (content : str) :
  length (excerpt_of_content content) ≤ 153 ∧
  length (excerpt_of_content content) ≤ length content + 3 ∧
  excerpt_of_content [] = [].
Proof.
  assert (Hdots : length ellipsis = 3) by reflexivity.
  unfold excerpt_of_content. split_and!.
  - etrans; [apply strip_markers_length|].
    destruct (150 <? length content) eqn:Hlen.
    + rewrite length_app, length_take, Hdots. lia.
    + apply Nat.ltb_ge in Hlen. lia.
  - etrans; [apply strip_markers_length|].
    destruct (150 <? length content).
    + rewrite length_app, length_take, Hdots. lia.
    + lia.
  - done.
Qed.

(** ** References to the images of the tree *)

(** X10. A reference to an image file of the tree, by any path with that
    basename, is rewritten to the name that [copy_assets] gave the last
    file of that basename, and the output directory holds a copy of a file
    of that basename under that name: the rewritten reference resolves. *)
Theorem reference_to_image_resolves (walk : list (str * list str))
    (dir0 : gmap str str) (alt_text image_path rest : str) :
  ("]"%char ∉ alt_text) → (")"%char ∉ image_path) →
  OsPath.basename image_path ∈ walk_files walk →
  is_image (OsPath.basename image_path) = true →
  ∃ st name root,
    copy_assets walk dir0 = Some st ∧
    images_dir st !! name
      = Some (OsPath.join root (OsPath.basename image_path)) ∧
    BlogGenerator.update_image_references
      (ImagePattern.embed alt_text [] image_path ++ rest) (copied_images st)
    = ImagePattern.embed alt_text (py "/images/") name
      ++ BlogGenerator.update_image_references rest (copied_images st) ∧
    MdToHtml.update_image_references
      (ImagePattern.embed alt_text [] image_path ++ rest) (copied_images st)
    = ImagePattern.embed alt_text (py "../images/") name
      ++ MdToHtml.update_image_references rest (copied_images st).
Proof.
  intros Halt Hpath Hin Himg.
  assert (Hne : image_path ≠ []) by (intros ->; discriminate Himg).
  destruct (copy_assets_inv walk dir0) as (st & Hrun & Hinv).
  set (key := OsPath.basename image_path) in *.
  assert (Hkey : ∃ name, copied_images st !! key = Some name
                   ∧ (key, name) ∈ printed st).
  { assert (Hp : key ∈ (printed st).*1).
    { rewrite (inv_files _ _ _ Hinv). by apply list_elem_of_filter. }
    apply list_elem_of_fmap in Hp as ([f n] & -> & Hp). simpl.
    rewrite (inv_map _ _ _ Hinv).
    destruct (last (filter (λ e, e.1 = f) (printed st))) as [[f' n']|] eqn:Hlast.
    - exists n'. split; [done|].
      apply last_Some_elem_of, list_elem_of_filter in Hlast as [Hf ?].
      simpl in Hf. by subst.
    - apply last_None in Hlast.
      assert (Hmem : (f, n) ∈ filter (λ e, e.1 = f) (printed st))
        by by apply list_elem_of_filter.
      rewrite Hlast in Hmem. by apply elem_of_nil in Hmem. }
  destruct Hkey as (name & Hname & Hprinted).
  destruct (copy_assets_sources walk dir0 st Hrun key name Hprinted)
    as (root & files & _ & _ & Hdir).
  exists st, name, root. split_and!; [done|done| |].
  - unfold BlogGenerator.update_image_references.
    rewrite sub_embed by done. unfold BlogGenerator.replace_image.
    fold key. by rewrite Hname.
  - unfold MdToHtml.update_image_references.
    rewrite sub_embed by done. unfold MdToHtml.replace_image.
    fold key. by rewrite Hname.
Qed.

Lemma reference_to_image_resolves_witness :
  ∃ st name root,
    copy_assets [(py "blogs", [py "a.png"]); (py "blogs/x", [py "a.png"])] ∅
      = Some st ∧
    images_dir st !! name = Some (OsPath.join root (py "a.png")) ∧
    BlogGenerator.update_image_references (py "![fig](../pics/a.png) end")
      (copied_images st)
    = ImagePattern.embed (py "fig") (py "/images/") name ++ py " end".
Proof.
  destruct (reference_to_image_resolves
    [(py "blogs", [py "a.png"]); (py "blogs/x", [py "a.png"])] ∅
    (py "fig") (py "../pics/a.png") (py " end"))
    as (st & name & root & Hrun & Hdir & Hbg & _).
  - apply (bool_decide_unpack _). vm_compute. exact I.
  - apply (bool_decide_unpack _). vm_compute. exact I.
  - apply (bool_decide_unpack _). vm_compute. exact I.
  - reflexivity.
  - exists st, name, root. split_and!; [exact Hrun|exact Hdir|].
    etrans; [exact Hbg|]. f_equal.
Defined.

(** ** The run of [blog_generator.py], step by step *)

Section BlogGeneratorSteps.
Context `{Libraries}.
Import BlogGenerator.




Lemma articles_html_of_cards (w : world) (blogs : list blog_info) :
  ∀ (articles_html : str) (s : site),
    articles_html_of w blogs articles_html s
    = (Ok (articles_html ++ cards w blogs), s).
Proof.
  induction blogs as [|blog blogs IH]; intros articles_html s; simpl.
  { unfold cards. simpl. by rewrite app_nil_r. }
  rewrite (io_bind_Ok _ _ _ _ _ (excerpt_of_spec w blog s)).
  rewrite IH. unfold cards. simpl. by rewrite <-app_assoc.
Qed.


Lemma generate_home_page_closed (w : world) (published_blogs : list blog_info)
    (s : site) :
  generate_home_page w published_blogs s
  = match re_sub_grid (grid_replacement (cards w (take 10 published_blogs)))
            (default fallback_template (template_file w home_template_name))
    with
    | Ok home_content =>
        (Ok (), {| images := images s;
                   files := files s ++ [(py "index.html", home_content)] |})
    | Raise e => (Raise e, s)
    end.
Proof.
  unfold generate_home_page.
  rewrite (io_bind_Ok _ _ _ _ _ (articles_html_of_cards w _ [] s)).
  cbv zeta. rewrite app_nil_l.
  replace (match template_file w home_template_name with
           | Some content => content
           | None => fallback_template
           end)
    with (default fallback_template (template_file w home_template_name))
    by by destruct (template_file w home_template_name).
  destruct (re_sub_grid _ _) as [home|e];
    [by erewrite io_bind_Ok by reflexivity
    |by erewrite io_bind_Raise by reflexivity].
Qed.


(** X11. The home page of [blog_generator.py] carries the cards of the
    first ten records given, in their order, each with its excerpt or the
    placeholder; composing it writes [index.html] and nothing else, and
    when the template expansion of [re.sub] raises, nothing is written. *)
Theorem home_page_of_first_ten (w : world) (published_blogs : list blog_info)
    (s : site) :
  generate_home_page w published_blogs s
  = match re_sub_grid (grid_replacement (cards w (take 10 published_blogs)))
            (default fallback_template (template_file w home_template_name))
    with
    | Ok home_content =>
        (Ok (), {| images := images s;
                   files := files s ++ [(py "index.html", home_content)] |})
    | Raise e => (Raise e, s)
    end.
Proof. apply generate_home_page_closed. Qed.



End BlogGeneratorSteps.



(** ** Documents that cannot be read *)

Section ReadFailures.
Context `{Libraries}.
Import BlogGenerator.


End ReadFailures.


(** The same with a title that makes [re.sub] raise: the re-read is
    recovered all the same, the page stays written, and the run ends with
    the error of [re.sub] and without home page. *)
Example re_sub_error_after_recovered_reread :
  ∃ s page,
    read_file Sample.escaped_title HomePage (py "temp_repo/blogs/a.md")
      = None ∧
    @BlogGenerator.generate_blog_site Sample.libs Sample.escaped_title
      empty_site = (Raise ReError, s) ∧
    files s = [(py "published/a.html", page)].
Proof. do 2 eexists. split_and!; vm_compute; reflexivity. Qed.


(** ** The run of [md_to_html.py], step by step *)

Section MdToHtmlSteps.
Context `{Libraries}.
Import MdToHtml.






Lemma md_articles_html_of_cards (w : world) (blogs : list blog_info) :
  ∀ (articles_html : str) (s : site),
    articles_html_of w blogs articles_html s
    = (Ok (articles_html ++ md_cards w blogs), s).
Proof.
  induction blogs as [|blog blogs IH]; intros articles_html s; simpl.
  { unfold md_cards. simpl. by rewrite app_nil_r. }
  assert (Hex : excerpt_of w blog s = (Ok (home_excerpt w blog), s)).
  { unfold excerpt_of, try_catch, mbind, io_bind, open_read, lift, home_excerpt.
    by destruct (read_file w HomePage (md_file blog)). }
  rewrite (io_bind_Ok _ _ _ _ _ Hex).
  rewrite IH. unfold md_cards. simpl. by rewrite <-app_assoc.
Qed.


(** X14. The home page of [md_to_html.py]: without its template file
    nothing is written; with it [index.html] is written, made from the
    template by putting the site title, the cards of the first ten records
    given, in their order, and the copyright line in place of their
    markers.  Composing it never raises. *)
Theorem md_home_page_written (w : world) (published_blogs : list blog_info)
    (repo_name : str) (s : site) :
  generate_home_page w published_blogs repo_name s
  = (Ok (),
     match template_file w (py "blog_home.template") with
     | None => s
     | Some template_content =>
         {| images := images s;
            files := files s
                     ++ [(py "index.html",
                          md_home_page w published_blogs repo_name
                            template_content)] |}
     end).
Proof.
  unfold generate_home_page.
  rewrite (io_bind_Ok _ _ _ _ _ (md_articles_html_of_cards w _ [] s)).
  rewrite app_nil_l.
  by destruct (template_file w (py "blog_home.template")).
Qed.



End MdToHtmlSteps.



(** ** Images that cannot be copied *)

Section CopyFailure.
Context `{Libraries}.

(** X20. An image file of the tree that [shutil.copy2] cannot copy ends
    the run of either generator with the I/O error inside [copy_assets],
    before any document is rendered: no page and no home page is
    written. *)
Theorem copy_failure_ends_run (w : world) (repo_url : str) (s0 : site)
    (p : str) :
  blogs_dir_exists w = true →
  p ∈ image_sources (walk w) → copy_ok w p = false →
  (∃ s', BlogGenerator.generate_blog_site w s0 = (Raise OSError, s') ∧
     files s' = []) ∧
  (∃ s', MdToHtml.generate_blog_site w repo_url s0 = (Raise OSError, s') ∧
     files s' = []).
Proof.
  intros Hexists Hin Hbad.
  destruct (copy_walk_io_raise w (walk w) ∅ empty_site p Hin Hbad)
    as (s' & Hcopy & Hfiles).
  split; exists s'; (split; [|exact Hfiles]).
  - unfold BlogGenerator.generate_blog_site. rewrite Hexists. cbn [negb].
    erewrite io_bind_Ok by reflexivity.
    by apply io_bind_Raise.
  - unfold MdToHtml.generate_blog_site. rewrite Hexists. cbn [negb]. cbv zeta.
    erewrite io_bind_Ok by reflexivity.
    by apply io_bind_Raise.
Qed.

End CopyFailure.

Lemma copy_failure_ends_run_witness :
  (∃ s', @BlogGenerator.generate_blog_site Sample.libs
           (Sample.dangling_image Sample.page_template_only) empty_site
         = (Raise OSError, s') ∧ files s' = []) ∧
  (∃ s', @MdToHtml.generate_blog_site Sample.libs
           (Sample.dangling_image Sample.page_template_only)
           (py "https://github.com/u/site.git") empty_site
         = (Raise OSError, s') ∧ files s' = []).
Proof.
  apply (@copy_failure_ends_run Sample.libs
           (Sample.dangling_image Sample.page_template_only)
           (py "https://github.com/u/site.git") empty_site
           (py "temp_repo/blogs/x.png")).
  - reflexivity.
  - apply elem_of_image_sources.
    exists (py "temp_repo/blogs"), [py "a.md"; py "img.png"; py "x.png"],
      (py "x.png").
    split_and!; [by left|set_solver|reflexivity|reflexivity].
  - reflexivity.
Defined.

(** ** The name of the site *)

Lemma lstrip_char_replicate (c a : ascii) (k : nat) (t : str) :
  a ≠ c →
  MdToHtml.lstrip_char c (replicate k c ++ a :: t) = a :: t.
Proof.
  intros Hne. induction k as [|k IH]; simpl.
  - by rewrite decide_False.
  - by rewrite decide_True.
Qed.

Lemma lstrip_char_all (c : ascii) (k : nat) :
  MdToHtml.lstrip_char c (replicate k c) = [].
Proof. induction k as [|k IH]; simpl; [done|]. by rewrite decide_True. Qed.

Lemma rstrip_slash_snoc (s : str) (c : ascii) (k : nat) :
  c ≠ "/"%char →
  MdToHtml.rstrip_slash (s ++ c :: replicate k "/"%char) = s ++ [c].
Proof.
  intros Hne. unfold MdToHtml.rstrip_slash.
  rewrite reverse_app, reverse_cons, reverse_replicate, <-!app_assoc.
  cbn [app]. rewrite lstrip_char_replicate by done.
  by rewrite reverse_cons, reverse_involutive.
Qed.

(** X17. The site name that [extract_repo_name] takes from a URL never
    holds a slash.  For a URL that ends in a last part [name], with or
    without [.git] after it and with any number of slashes at the end, the
    site name is [name]; for a URL made of slashes only it is empty. *)
Theorem extract_repo_name_spec (repo_url : str) :
  (OsPath.sep ∉ MdToHtml.extract_repo_name repo_url) ∧
  (∀ base name k,
     (OsPath.sep ∉ name) →
     repo_url = base ++ py "/" ++ name ++ py ".git" ++ replicate k "/"%char →
     MdToHtml.extract_repo_name repo_url = name) ∧
  (∀ base name k,
     (OsPath.sep ∉ name) → name ≠ [] →
     PyStr.endswith name (py ".git") = false →
     repo_url = base ++ py "/" ++ name ++ replicate k "/"%char →
     MdToHtml.extract_repo_name repo_url = name) ∧
  (∀ k, repo_url = replicate k "/"%char →
     MdToHtml.extract_repo_name repo_url = []).
Proof.
  split_and!.
  - unfold MdToHtml.extract_repo_name. cbv zeta.
    pose proof (after_last_not_elem "/"%char (MdToHtml.rstrip_slash repo_url))
      as Hno.
    destruct (PyStr.endswith _ _); [|exact Hno].
    intros Hin. apply Hno. by eapply subseteq_take.
  - intros base name k Hname ->.
    assert (Hgit : OsPath.sep ∉ name ++ py ".git").
    { rewrite not_elem_of_app. split; [done|].
      intros Hin. vm_compute in Hin. set_solver. }
    unfold MdToHtml.extract_repo_name. cbv zeta.
    replace (base ++ py "/" ++ name ++ py ".git" ++ replicate k "/"%char)
      with ((base ++ py "/" ++ name ++ py ".gi")
            ++ "t"%char :: replicate k "/"%char)
      by (by rewrite <-!app_assoc).
    rewrite rstrip_slash_snoc by done.
    replace ((base ++ py "/" ++ name ++ py ".gi") ++ ["t"%char])
      with (base ++ "/"%char :: (name ++ py ".git"))
      by (by rewrite <-!app_assoc).
    rewrite after_last_app by exact Hgit.
    assert (PyStr.endswith (name ++ py ".git") (py ".git") = true) as ->
      by (apply endswith_spec; eauto).
    rewrite length_app. change (length (py ".git")) with 4.
    replace (length name + 4 - 4) with (length name) by lia.
    apply take_app_length.
  - intros base name k Hname Hne Hgit ->.
    destruct (removelast_snoc_last name Hne) as [c Hc].
    assert (Hcsep : c ≠ "/"%char).
    { intros ->. apply Hname. rewrite Hc. set_solver. }
    unfold MdToHtml.extract_repo_name. cbv zeta.
    replace (base ++ py "/" ++ name ++ replicate k "/"%char)
      with ((base ++ py "/" ++ removelast name)
            ++ c :: replicate k "/"%char)
      by (rewrite Hc at 2; by rewrite <-!app_assoc).
    rewrite rstrip_slash_snoc by done.
    replace ((base ++ py "/" ++ removelast name) ++ [c])
      with (base ++ "/"%char :: name)
      by (rewrite Hc at 1; by rewrite <-!app_assoc).
    rewrite after_last_app by exact Hname.
    by rewrite Hgit.
  - intros k ->. unfold MdToHtml.extract_repo_name, MdToHtml.rstrip_slash.
    by rewrite reverse_replicate, lstrip_char_all.
Qed.

Lemma extract_repo_name_spec_witness :
  MdToHtml.extract_repo_name
    (py "https://github.com/u" ++ py "/" ++ py "blog-stack" ++ py ".git"
     ++ replicate 2 "/"%char)
  = py "blog-stack".
Proof.
  refine (proj1 (proj2 (extract_repo_name_spec _)) _ _ 2 _ eq_refl).
  intros Hin. vm_compute in Hin. set_solver.
Defined.

(** ** The conversion of one file *)



Section Convert.
Context `{Libraries}.


End Convert.


(** ** The path of a page *)

Lemma replace_go_nil (f : nat) (old new : str) :
  old ≠ [] → PyStr.replace_go f old new [] = [].
Proof. intros Hne. destruct f; [done|]. by destruct old. Qed.

Lemma replace_go_fuel (old new : str) :
  old ≠ [] →
  ∀ f g s, length s ≤ f → length s ≤ g →
    PyStr.replace_go f old new s = PyStr.replace_go g old new s.
Proof.
  intros Hne. induction f as [|f IH]; intros g s Hf Hg.
  - destruct s; [|simpl in Hf; lia]. by rewrite !replace_go_nil.
  - destruct g as [|g].
    { destruct s; [|simpl in Hg; lia]. by rewrite !replace_go_nil. }
    cbn [PyStr.replace_go].
    destruct (PyStr.cut old s) as [[a b]|] eqn:Hcut; [|done].
    apply cut_Some in Hcut. subst s.
    assert (0 < length old) by (destruct old; [done|simpl; lia]).
    rewrite !length_app in Hf, Hg.
    do 2 f_equal. apply IH; lia.
Qed.

(** A text in which [old] does not occur is left as it is. *)
Lemma replace_without (old new s : str) :
  ¬ occurs old s → PyStr.replace old new s = s.
Proof.
  intros Hocc. unfold PyStr.replace.
  destruct (length s); cbn [PyStr.replace_go]; [done|].
  by rewrite cut_None_intro.
Qed.

(** The leftmost occurrence is replaced and the text after it is treated
    in turn. *)
Lemma replace_leftmost (old new a b : str) :
  old ≠ [] → ¬ occurs old (a ++ removelast old) →
  PyStr.replace old new (a ++ old ++ b)
  = a ++ new ++ PyStr.replace old new b.
Proof.
  intros Hne Hocc. unfold PyStr.replace.
  assert (0 < length old) by (destruct old; [done|simpl; lia]).
  destruct (length (a ++ old ++ b)) as [|f] eqn:Hlen.
  { rewrite !length_app in Hlen. lia. }
  cbn [PyStr.replace_go]. rewrite cut_leftmost by done.
  do 2 f_equal. apply replace_go_fuel; [done| |done].
  rewrite !length_app in Hlen. lia.
Qed.

Lemma md_not_in_stem (stem : str) :
  ¬ occurs (py ".md") stem → ¬ occurs (py ".md") (stem ++ py ".m").
Proof.
  intros Hocc (x & y & Heq). apply Hocc.
  destruct y as [|c y _] using rev_ind.
  { exfalso. rewrite app_nil_r in Heq.
    change (stem ++ py ".m") with (stem ++ py "." ++ ["m"%char]) in Heq.
    change (x ++ py ".md") with (x ++ py ".m" ++ ["d"%char]) in Heq.
    rewrite !app_assoc in Heq. by apply app_inj_tail in Heq as [_ [=]]. }
  change (stem ++ py ".m") with (stem ++ py "." ++ ["m"%char]) in Heq.
  rewrite !app_assoc in Heq. apply app_inj_tail in Heq as [Heq _].
  rewrite <-!app_assoc in Heq.
  destruct y as [|c' y _] using rev_ind.
  { exfalso. rewrite app_nil_r in Heq.
    change (x ++ py ".md") with (x ++ py ".m" ++ ["d"%char]) in Heq.
    rewrite !app_assoc in Heq. by apply app_inj_tail in Heq as [_ [=]]. }
  rewrite !app_assoc in Heq. apply app_inj_tail in Heq as [Heq _].
  rewrite <-!app_assoc in Heq. by exists x, y.
Qed.

Section PagePath.
Context `{Libraries}.

(** X19. The page of a document [stem.md], in whatever directory of the
    tree, is written at [published/stem.html] when its status is the
    string [published] and at [draft/stem.html] otherwise, for a stem in
    which [.md] does not occur: the directory of the document does not
    enter the path, so documents of one name and status share one page. *)
Theorem page_path_flat (w : world) (blog : blog_info) (root stem : str) :
  record_of w blog →
  (OsPath.sep ∉ stem) → ¬ occurs (py ".md") stem →
  md_file blog = OsPath.join root (stem ++ py ".md") →
  path blog
  = (if eq_str (status blog) (py "published")
     then py "published" else py "draft")
    ++ py "/" ++ stem ++ py ".html".
Proof.
  intros (md_content & _ & _ & Hpath) Hsep Hocc Hfile.
  rewrite Hpath, Hfile. unfold page_path.
  rewrite basename_join.
  2:{ rewrite not_elem_of_app. split; [done|].
      intros Hin. vm_compute in Hin. set_solver. }
  do 2 f_equal.
  rewrite <-(app_nil_r (stem ++ py ".md")), <-app_assoc.
  rewrite replace_leftmost; [|done|by apply md_not_in_stem].
  by rewrite replace_without by (intros ([|??] & ? & [=])).
Qed.

End PagePath.

Lemma page_path_flat_witness :
  path {| title := VStr (py "Hello");
          path := py "published/a.html";
          date := Some {| year := 2024; month := 3; day := 1 |};
          status := VStr (py "published");
          author := VStr [];
          tags := VList [];
          md_file := py "temp_repo/blogs/a.md" |}
  = (if eq_str (VStr (py "published")) (py "published")
     then py "published" else py "draft")
    ++ py "/" ++ py "a" ++ py ".html".
Proof.
  apply (@page_path_flat Sample.libs
           (Sample.repository true Sample.no_template)
           {| title := VStr (py "Hello");
              path := py "published/a.html";
              date := Some {| year := 2024; month := 3; day := 1 |};
              status := VStr (py "published");
              author := VStr [];
              tags := VList [];
              md_file := py "temp_repo/blogs/a.md" |}
           (py "temp_repo/blogs") (py "a")).
  - exists Sample.document. split_and!; vm_compute; reflexivity.
  - intros Hin. vm_compute in Hin. set_solver.
  - intros (a & b & Heq). by apply (cut_None (py ".md") (py "a") eq_refl a b).
  - reflexivity.
Defined.
